(** * interfaz_chatbot_aemet.py: the retrieval-augmented answering pipeline

    A shallow embedding of [src/interfaz_chatbot_aemet.py]: the two retrying
    wrappers [safe_generate_content] and [safe_embed_content], the five
    pipeline stages run for one user input, and the conversation log kept in
    [st.session_state.conversation].

    - Values coming back from the external services are dynamically typed in
      the source, so they are embedded as [pyval], with the Python operations
      the script applies to them ([hasattr], [.get], [x[0]], [in], [>=],
      truthiness) written out, including the exception each one raises.
    - Similarity scores are IEEE binary64 numbers, as Python floats are.
    - The script runs in a small state-and-exception monad over [world]: the
      session's conversation log and the trace of every external effect
      (service calls, sleeps, notices) in the order they happen.  State
      changes made before an exception is raised are kept, as in Python.
    - The external services are arbitrary functions of the trace so far.
    - What the script writes to the page or to standard output ([st.*],
      [print]) and [time.sleep] are recorded as events; the HTML itself
      (and spinner, expander, side bar) is left out, but the exceptions that
      formatting a value into an f-string raises are kept.
    - Exceptions are the instances of Python's [Exception], which is what
      the script's handlers catch. *)

From Stdlib Require Import ZArith List String Ascii Bool Lia DecimalString.
From Stdlib Require Import Floats.PrimFloat Floats.SpecFloat Floats.FloatOps.
Import ListNotations.

Set Warnings "-inexact-float,-register-all".
Local Open Scope string_scope.
Local Open Scope list_scope.

Infix "+++" := String.append (right associativity, at level 60).

(** ** Python values *)

Inductive pyval : Type :=
| PyNone
| PyBool (b : bool)
| PyInt (z : Z)
| PyFloat (f : float)
| PyStr (s : string)
| PyList (l : list pyval)
| PyDict (d : list (string * pyval))     (* a dict with string keys *)
| PyObj (attrs : list (string * pyval)). (* a plain object: its attributes *)

(** Exceptions deriving from Python's [Exception]: the only ones
    [except Exception] handles, and the only ones modelled. *)
Inductive exn_class : Type :=
| TypeError | AttributeError | IndexError | KeyError | ValueError | OverflowError
| ServiceError.   (* whatever an external service call raises *)

(** [exn_str e] is [str(e)].  The texts given to interpreter-raised errors
    below are abbreviations of CPython's. *)
Record exn : Type := mk_exn { exn_kind : exn_class; exn_str : string }.

Inductive result (A : Type) : Type :=
| Ok (a : A)
| Raise (e : exn).
Arguments Ok {A} a.
Arguments Raise {A} e.

Definition rbind {A B} (r : result A) (k : A -> result B) : result B :=
  match r with
  | Ok a => k a
  | Raise e => Raise e
  end.

Notation "'let?' x ':=' r 'in' k" := (rbind r (fun x => k))
  (at level 10, x name, r at level 100, k at level 200).

Definition nl : string := String (ascii_of_nat 10) EmptyString.
Definition dquote : string := String (ascii_of_nat 34) EmptyString.

(** [str(n)] for a non-negative int. *)
Definition str_of_nat (n : nat) : string := NilZero.string_of_uint (Nat.to_uint n).

(** [sep.join(parts)] *)
Fixpoint join (sep : string) (parts : list string) : string :=
  match parts with
  | [] => EmptyString
  | [p] => p
  | p :: rest => p +++ sep +++ join sep rest
  end.

Fixpoint dict_get (d : list (string * pyval)) (k : string) : option pyval :=
  match d with
  | [] => None
  | (k', v) :: rest => if String.eqb k' k then Some v else dict_get rest k
  end.

(** [bool(v)] *)
Definition py_truthy (v : pyval) : bool :=
  match v with
  | PyNone => false
  | PyBool b => b
  | PyInt z => negb (Z.eqb z 0)
  | PyFloat f => negb (PrimFloat.eqb f 0%float)
  | PyStr s => negb (String.eqb s EmptyString)
  | PyList l => match l with [] => false | _ => true end
  | PyDict d => match d with [] => false | _ => true end
  | PyObj _ => true
  end.

(** [hasattr(v, name)], for the attribute names the script asks about
    ([candidates], [parts]): only a plain object can carry them. *)
Definition py_hasattr (v : pyval) (name : string) : bool :=
  match v with
  | PyObj attrs => match dict_get attrs name with Some _ => true | None => false end
  | _ => false
  end.

(** [v.name], for the attribute names [candidates], [content], [parts], [text]. *)
Definition py_getattr (v : pyval) (name : string) : result pyval :=
  match v with
  | PyObj attrs =>
      match dict_get attrs name with
      | Some x => Ok x
      | None => Raise (mk_exn AttributeError ("object has no attribute " +++ name))
      end
  | _ => Raise (mk_exn AttributeError ("object has no attribute " +++ name))
  end.

(** [v[0]] *)
Definition py_index0 (v : pyval) : result pyval :=
  match v with
  | PyList (x :: _) => Ok x
  | PyList [] => Raise (mk_exn IndexError "list index out of range")
  | PyStr (String c _) => Ok (PyStr (String c EmptyString))
  | PyStr EmptyString => Raise (mk_exn IndexError "string index out of range")
  | PyDict _ => Raise (mk_exn KeyError "0")
  | _ => Raise (mk_exn TypeError "object is not subscriptable")
  end.

(** [v.get(key, default)]: only a dict has the method. *)
Definition py_get (v : pyval) (key : string) (default : pyval) : result pyval :=
  match v with
  | PyDict d => Ok (match dict_get d key with Some x => x | None => default end)
  | _ => Raise (mk_exn AttributeError "object has no attribute get")
  end.

Fixpoint chars (s : string) : list pyval :=
  match s with
  | EmptyString => []
  | String c rest => PyStr (String c EmptyString) :: chars rest
  end.

(** The items [for m in v] runs over. *)
Definition py_iter (v : pyval) : result (list pyval) :=
  match v with
  | PyList l => Ok l
  | PyDict d => Ok (map (fun kv => PyStr (fst kv)) d)
  | PyStr s => Ok (chars s)
  | _ => Raise (mk_exn TypeError "object is not iterable")
  end.

Definition is_str (key : string) (v : pyval) : bool :=
  match v with
  | PyStr s => String.eqb s key
  | _ => false
  end.

(** [key in v], for a string [key]. *)
Definition py_contains (key : string) (v : pyval) : result bool :=
  match v with
  | PyDict d => Ok (match dict_get d key with Some _ => true | None => false end)
  | PyList l => Ok (existsb (is_str key) l)
  | PyStr s => Ok (match String.index 0 key s with Some _ => true | None => false end)
  | _ => Raise (mk_exn TypeError "argument is not iterable")
  end.

(** [z >= t] for an int [z] and a float [t]: Python compares the exact
    values, without rounding the int. *)
Definition Z_ge_float (z : Z) (t : float) : bool :=
  match Prim2SF t with
  | S754_zero _ => (0 <=? z)%Z
  | S754_infinity negative => negative
  | S754_nan => false
  | S754_finite negative m e =>
      let mz := if negative then Z.neg m else Z.pos m in
      if (0 <=? e)%Z then (mz * 2 ^ e <=? z)%Z else (mz <=? z * 2 ^ (- e))%Z
  end.

(** [v >= t] for a float [t]: numbers compare (a bool is the int 0 or 1),
    anything else raises [TypeError]. *)
Definition py_ge_float (v : pyval) (t : float) : result bool :=
  match v with
  | PyFloat f => Ok (PrimFloat.leb t f)
  | PyInt z => Ok (Z_ge_float z t)
  | PyBool b => Ok (Z_ge_float (if b then 1 else 0) t)
  | _ => Raise (mk_exn TypeError ">= not supported between these instances")
  end.

(** An int converts to a float unless it rounds beyond the largest double:
    from [2^1024 - 2^970] on, the conversion raises [OverflowError]. *)
Definition float_overflow_bound : Z := 2 ^ 1024 - 2 ^ 970.

(** [f"{v:.2%}"]: the exception it raises, if any.  An int is converted to
    a float first; a string does not know the format code; the other
    values accept no format specification at all. *)
Definition py_percent_error (v : pyval) : option exn :=
  match v with
  | PyFloat _ | PyBool _ => None
  | PyInt z =>
      if (float_overflow_bound <=? Z.abs z)%Z
      then Some (mk_exn OverflowError "int too large to convert to float")
      else None
  | PyStr _ => Some (mk_exn ValueError "Unknown format code % for object of type str")
  | _ => Some (mk_exn TypeError "unsupported format string passed to __format__")
  end.

(** Converting an int of more than 4300 decimal digits to a string raises
    [ValueError] (the interpreter's limit on int-to-string conversion). *)
Definition int_str_limit : Z := 10 ^ 4300.

(** [f"{v}"]: the exception it raises, if any.  The text of a list or of a
    dict contains the text of its items. *)
Fixpoint py_str_error (v : pyval) : option exn :=
  match v with
  | PyInt z =>
      if (int_str_limit <=? Z.abs z)%Z
      then Some (mk_exn ValueError "Exceeds the limit (4300 digits) for integer string conversion")
      else None
  | PyList l =>
      (fix first_error (items : list pyval) : option exn :=
         match items with
         | [] => None
         | x :: rest =>
             match py_str_error x with
             | Some e => Some e
             | None => first_error rest
             end
         end) l
  | PyDict d =>
      (fix first_error (items : list (string * pyval)) : option exn :=
         match items with
         | [] => None
         | (_, x) :: rest =>
             match py_str_error x with
             | Some e => Some e
             | None => first_error rest
             end
         end) d
  | _ => None
  end.

(** ** Configuration (lines 10-12, 39-54) *)

Definition MIN_SIMILARITY_SCORE : float := 0.50%float.
Definition TOP_K : Z := 5.

Definition CUSTOM_PROMPT : string :=
  nl +++
  "Eres un asistente especializado en resolver dudas sobre el pliego de condiciones del proyecto de Crowdsourcing para la recogida, tratamiento y difusión del impacto meteorológico de la Agencia Estatal de Meteorología (AEMET)." +++ nl +++
  "Tu objetivo es proporcionar respuestas precisas y claras basadas únicamente en el contenido del pliego." +++ nl +++
  nl +++
  "Recibirás:" +++ nl +++
  "1. El historial de la conversación actual" +++ nl +++
  "2. La última consulta del usuario" +++ nl +++
  "3. Fragmentos relevantes extraídos del pliego" +++ nl +++
  nl +++
  "Instrucciones:" +++ nl +++
  "- Utiliza el historial para entender el contexto" +++ nl +++
  "- Responde con rigurosidad técnica, referenciando secciones y apartados del pliego" +++ nl +++
  "- Si la información no se encuentra en los fragmentos, indícalo claramente" +++ nl +++
  "- Sé conciso y estructurado en tus respuestas" +++ nl +++
  "- Cita textualmente partes del pliego cuando sea posible" +++ nl.

(** ** Conversation state and the trace of effects *)

Record fragment : Type := mk_fragment {
  texto : pyval;
  documento : pyval;
  score : pyval
}.

Inductive role : Type := Usuario | Asistente.

Definition role_str (r : role) : string :=
  match r with
  | Usuario => "Usuario"
  | Asistente => "Asistente"
  end.

(** One entry of [st.session_state.conversation].  A user entry has no
    ['fragments'] key. *)
Record turn : Type := mk_turn {
  turn_role : role;
  content : string;
  fragments : option (list fragment)
}.

Inductive event : Type :=
| GenerateCall (prompt : string)              (* model.generate_content(prompt) *)
| EmbedCall (text : string)                   (* genai.embed_content(model=..., content=text) *)
| IndexQuery (vector : pyval) (top_k : Z)     (* index.query(vector=..., top_k=..., include_metadata=True) *)
| Sleep (seconds : Z)                         (* time.sleep *)
| StWarning (msg : string)
| StError (msg : string)
| StInfo (msg : string)
| StChatMessage (name : string)
| StMarkdown (body : string)
| StFragmentCard (f : fragment)               (* the HTML card display_fragments renders *)
| Stdout (args : list string).                (* print(...) *)

Record world : Type := mk_world {
  conversation : list turn;
  trace : list event
}.

(** Session start (lines 57-58): an empty conversation. *)
Definition new_session : world := mk_world [] [].

(** The external collaborators: each call's outcome may depend on everything
    that happened before it.  With them, two built-ins the script uses and
    that are left abstract: [strip] is [str.strip], and [py_str] is the text
    an f-string gives a value. *)
Record services : Type := mk_services {
  generate_content : list event -> string -> result pyval;
  embed_content : list event -> string -> result pyval;
  index_query : list event -> pyval -> Z -> result pyval;
  strip : string -> string;
  py_str : pyval -> string
}.

(** ** The script monad *)

Definition M (A : Type) : Type := world -> result A * world.

Definition ret {A} (a : A) : M A := fun w => (Ok a, w).

Definition bind {A B} (m : M A) (k : A -> M B) : M B :=
  fun w =>
    match m w with
    | (Ok a, w') => k a w'
    | (Raise e, w') => (Raise e, w')
    end.

Notation "x <- m ;; k" := (bind m (fun x => k))
  (at level 100, m at next level, right associativity).
Notation "m ;; k" := (bind m (fun _ => k))
  (at level 100, right associativity).

Definition lift {A} (r : result A) : M A := fun w => (r, w).

(** [try: body  except Exception as e: handler(e)] *)
Definition try_except {A} (body : M A) (handler : exn -> M A) : M A :=
  fun w =>
    match body w with
    | (Ok a, w') => (Ok a, w')
    | (Raise e, w') => handler e w'
    end.

Definition emit (ev : event) : M unit :=
  fun w => (Ok tt, mk_world (conversation w) (trace w ++ [ev])).

Definition get_conversation : M (list turn) :=
  fun w => (Ok (conversation w), w).

(** [st.session_state.conversation.append(t)] *)
Definition append_turn (t : turn) : M unit :=
  fun w => (Ok tt, mk_world (conversation w ++ [t]) (trace w)).

(** [for attempt in range(n): body(attempt)], where the body may [return]
    from the enclosing function ([Some]) or fall through to the next
    iteration ([None]); [after] is the code below the loop. *)
Fixpoint for_range {A} (attempt n : nat) (body : nat -> M (option A)) (after : M A) : M A :=
  match n with
  | O => after
  | S n' =>
      r <- body attempt ;;
      match r with
      | Some a => ret a
      | None => for_range (S attempt) n' body after
      end
  end.

(** ** Texts built by the script *)

Definition GENERATION_FALLBACK : string :=
  "No se pudo generar una respuesta. Por favor, intenta reformular tu consulta.".

Definition EMPTY_ANSWER_APOLOGY : string :=
  "Lo siento, no pude generar una respuesta. Por favor, intenta reformular tu consulta.".

Definition NO_FRAGMENTS_CONTEXT : string :=
  "No se encontraron fragmentos relevantes en el pliego para esta consulta.".

Definition expand_prompt (user_input : string) : string :=
  "Expande lingüísticamente esta consulta sobre el pliego de AEMET para mejorar su vectorización: "
  +++ dquote +++ user_input +++ dquote +++
  ". Tu respuesta deber únicamente la consulta expandida, nada más. Ten en cuenta que tu respuesta se vectorizará directamente para un RAG, por lo que responde únicamente con lo necesario.".

Definition synth_prompt (ctx user_input : string) : string :=
  "Dado estos fragmentos del pliego:" +++ nl +++ ctx +++ nl +++ nl +++
  "Sintetiza y organiza la información en un contexto claro para el asistente. Ten en cuenta que tu respuesta servirá como fuente de datos a un LLM para responder a la siguiente consulta: "
  +++ user_input.

Definition final_prompt (formatted synthesized_context user_input : string) : string :=
  CUSTOM_PROMPT +++ nl +++ nl +++ "Historial de conversación:" +++ nl +++ formatted +++ nl +++ nl +++
  "Contexto sintetizado:" +++ nl +++ synthesized_context +++ nl +++ nl +++
  "Consulta actual: " +++ user_input.

Definition error_answer (e : exn) : string :=
  "Se produjo un error al procesar tu consulta: " +++ exn_str e +++ ". Por favor, inténtalo de nuevo.".

(** [format_history] (lines 74-75) *)
Definition format_history (conv : list turn) : string :=
  join nl (map (fun msg => role_str (turn_role msg) +++ ": " +++ content msg) conv).

(** ** Response inspection: the pure part of each [try] body *)

(** Lines 82-84.  [Ok (Some s)]: the wrapper returns [s]; [Ok None]: the
    response has not the expected shape and control reaches the [sleep] of
    line 86; [Raise e]: one of the accesses raised. *)
Definition extract_text (strip : string -> string) (response : pyval) : result (option string) :=
  if py_hasattr response "candidates" then
    let? candidates := py_getattr response "candidates" in
    if py_truthy candidates then
      let? first := py_index0 candidates in
      let? first_content := py_getattr first "content" in
      if py_hasattr first_content "parts" then
        let? parts := py_getattr first_content "parts" in
        let? part := py_index0 parts in
        let? text := py_getattr part "text" in
        match text with
        | PyStr s => Ok (Some (strip s))
        | _ => Raise (mk_exn AttributeError "object has no attribute strip")
        end
      else Ok None
    else Ok None
  else Ok None.

(** Lines 98-99. *)
Definition extract_embedding (embed : pyval) : result (option pyval) :=
  let? present := py_contains "embedding" embed in
  if present then
    let? v := py_get embed "embedding" PyNone in
    Ok (Some v)
  else Ok None.

(** ** Retrieval filtering (lines 141-145) *)

(** One iteration of the loop over the matches: [Ok (Some f)] when the
    fragment [f] is appended to [retrieved], [Ok None] when the match is
    skipped. *)
Definition match_step (m : pyval) : result (option fragment) :=
  let? sc := py_get m "score" (PyInt 0) in
  let? keep := py_ge_float sc MIN_SIMILARITY_SCORE in
  if keep then
    let? meta := py_get m "metadata" (PyDict []) in
    let? t := py_get meta "texto" (PyStr EmptyString) in
    let? d := py_get meta "documento" (PyStr EmptyString) in
    Ok (Some (mk_fragment t d sc))
  else Ok None.

(** The loop appends to the list [retrieved] in place, so what was appended
    before an iteration raises stays in the list: the result is the list
    together with the exception that stopped the loop, if any. *)
Fixpoint collect_matches (ms : list pyval) (retrieved : list fragment)
  : list fragment * option exn :=
  match ms with
  | [] => (retrieved, None)
  | m :: rest =>
      match match_step m with
      | Ok (Some f) => collect_matches rest (retrieved ++ [f])
      | Ok None => collect_matches rest retrieved
      | Raise e => (retrieved, Some e)
      end
  end.

(** Lines 141-145 on the response of [index.query], starting from
    [retrieved = []]. *)
Definition scan_response (query_res : pyval) : list fragment * option exn :=
  match (let? matches := py_get query_res "matches" (PyList []) in py_iter matches) with
  | Ok ms => collect_matches ms []
  | Raise e => ([], Some e)
  end.

(** ** The script, over given external services *)

Section Script.

Variable svc : services.

(** External calls: the event is recorded, the outcome is the service's. *)
Definition call_generate (prompt : string) : M pyval :=
  fun w => (generate_content svc (trace w) prompt,
            mk_world (conversation w) (trace w ++ [GenerateCall prompt])).

Definition call_embed (text : string) : M pyval :=
  fun w => (embed_content svc (trace w) text,
            mk_world (conversation w) (trace w ++ [EmbedCall text])).

Definition call_index_query (vector : pyval) (top_k : Z) : M pyval :=
  fun w => (index_query svc (trace w) vector top_k,
            mk_world (conversation w) (trace w ++ [IndexQuery vector top_k])).

(** One iteration of the loop of [safe_generate_content] (lines 80-89). *)
Definition generate_attempt (prompt : string) (attempt : nat) : M (option string) :=
  try_except
    (response <- call_generate prompt ;;
     r <- lift (extract_text (strip svc) response) ;;
     match r with
     | Some s => ret (Some s)
     | None => emit (Sleep 1) ;; ret None
     end)
    (fun e =>
       emit (StWarning ("Error en intento " +++ str_of_nat (attempt + 1) +++ ": " +++ exn_str e)) ;;
       emit (Sleep 1) ;;
       ret None).

(** Lines 77-91. *)
Definition safe_generate_content (prompt : string) (max_retries : Z) : M string :=
  for_range 0 (Z.to_nat max_retries) (generate_attempt prompt) (ret GENERATION_FALLBACK).

(** One iteration of the loop of [safe_embed_content] (lines 96-103). *)
Definition embed_attempt (text : string) (attempt : nat) : M (option pyval) :=
  try_except
    (embed <- call_embed text ;;
     r <- lift (extract_embedding embed) ;;
     match r with
     | Some v => ret (Some v)
     | None => emit (Sleep 1) ;; ret None
     end)
    (fun e =>
       emit (StWarning ("Error al generar embedding (intento " +++ str_of_nat (attempt + 1) +++ "): " +++ exn_str e)) ;;
       emit (Sleep 1) ;;
       ret None).

(** Lines 93-104. *)
Definition safe_embed_content (text : string) (max_retries : Z) : M pyval :=
  for_range 0 (Z.to_nat max_retries) (embed_attempt text) (ret PyNone).

(** The f-string of lines 66-72 formats the source label, the score (as a
    percentage) and the text, in that order: the exception it raises, if
    any. *)
Definition card_error (f : fragment) : option exn :=
  match py_str_error (documento f) with
  | Some e => Some e
  | None =>
      match py_percent_error (score f) with
      | Some e => Some e
      | None => py_str_error (texto f)
      end
  end.

Definition show_card (f : fragment) : M unit :=
  match card_error f with
  | Some e => lift (Raise e)
  | None => emit (StFragmentCard f)
  end.

(** [display_fragments] (lines 61-72).  Nothing handles an exception of the
    f-string: it leaves the function, after the cards already shown. *)
Definition display_fragments (frs : list fragment) : M unit :=
  match frs with
  | [] => emit (StInfo "No se encontraron fragmentos relevantes del pliego.")
  | _ => fold_right (fun f rest => show_card f ;; rest) (ret tt) frs
  end.

(** Stage 1 (lines 129-131). *)
Definition expand_query (user_input : string) : M string :=
  expanded_query <- safe_generate_content (expand_prompt user_input) 3 ;;
  emit (Stdout ["La consulta expandida es: "; expanded_query]) ;;
  ret expanded_query.

(** Stage 3 (lines 137-147). *)
Definition retrieve (query_vector : pyval) : M (list fragment) :=
  if py_truthy query_vector then
    r <- try_except
           (query_res <- call_index_query query_vector TOP_K ;;
            ret (scan_response query_res))
           (fun e => ret ([], Some e)) ;;
    match snd r with
    | Some e => emit (StError ("Error al consultar Pinecone: " +++ exn_str e)) ;; ret (fst r)
    | None => ret (fst r)
    end
  else ret [].

(** The f-strings of line 152 format, for each fragment in order, its
    source label and then its text: the first exception raised, if any. *)
Fixpoint context_error (retrieved : list fragment) : option exn :=
  match retrieved with
  | [] => None
  | f :: rest =>
      match py_str_error (documento f) with
      | Some e => Some e
      | None =>
          match py_str_error (texto f) with
          | Some e => Some e
          | None => context_error rest
          end
      end
  end.

(** Stage 4 (lines 150-157).  An exception of line 152 is raised before any
    call is made; only the outer handler catches it. *)
Definition synthesize (user_input : string) (retrieved : list fragment) : M string :=
  match retrieved with
  | [] => ret NO_FRAGMENTS_CONTEXT
  | _ =>
      match context_error retrieved with
      | Some e => lift (Raise e)
      | None =>
          let ctx := join (nl +++ "---" +++ nl)
                       (map (fun f => "[" +++ py_str svc (documento f) +++ "]: " +++ py_str svc (texto f))
                            retrieved) in
          synthesized_context <- safe_generate_content (synth_prompt ctx user_input) 3 ;;
          emit (Stdout ["Los fragmentos sintetizados son: "; synthesized_context]) ;;
          ret synthesized_context
      end
  end.

(** Stage 5 (lines 160-169).  [history] is the conversation without its
    last entry, the user turn just appended. *)
Definition generate_answer (user_input synthesized_context : string) : M string :=
  conv <- get_conversation ;;
  let history := removelast conv in
  let formatted := format_history history in
  answer <- safe_generate_content (final_prompt formatted synthesized_context user_input) 3 ;;
  if String.eqb answer EmptyString then ret EMPTY_ANSWER_APOLOGY else ret answer.

(** Stages 4 and 5, from the retrieved fragments on (lines 150-169). *)
Definition answer_from (user_input : string) (retrieved : list fragment) : M (string * list fragment) :=
  synthesized_context <- synthesize user_input retrieved ;;
  answer <- generate_answer user_input synthesized_context ;;
  ret (answer, retrieved).

(** Stages 2 to 5, from the expanded query on (lines 134-169). *)
Definition answer_expanded (user_input expanded_query : string) : M (string * list fragment) :=
  query_vector <- safe_embed_content expanded_query 3 ;;
  retrieved <- retrieve query_vector ;;
  answer_from user_input retrieved.

(** The body of the outer [try] (lines 128-169): the values of [answer] and
    [retrieved] when it completes. *)
Definition pipeline (user_input : string) : M (string * list fragment) :=
  expanded_query <- expand_query user_input ;;
  answer_expanded user_input expanded_query.

(** Lines 127-173: the outer [try] with its handler, which replaces the
    answer by the error text and empties [retrieved]. *)
Definition guarded (body : M (string * list fragment)) : M (string * list fragment) :=
  try_except body (fun e => ret (error_answer e, [])).

(** Lines 121-180 for a non-empty input. *)
Definition process_turn (user_input : string) : M unit :=
  append_turn (mk_turn Usuario user_input None) ;;
  emit (StChatMessage "usuario") ;;
  emit (StMarkdown user_input) ;;
  r <- guarded (pipeline user_input) ;;
  let (answer, retrieved) := r in
  append_turn (mk_turn Asistente answer (Some retrieved)) ;;
  emit (StChatMessage "asistente") ;;
  emit (StMarkdown answer) ;;
  display_fragments retrieved.

(** Lines 111-116: the history is rendered at the start of every run. *)
Definition show_turn (msg : turn) : M unit :=
  emit (StChatMessage (match turn_role msg with Usuario => "usuario" | Asistente => "asistente" end)) ;;
  emit (StMarkdown (content msg)) ;;
  match turn_role msg, fragments msg with
  | Asistente, Some frs => display_fragments frs
  | _, _ => ret tt
  end.

Definition show_history : M unit :=
  conv <- get_conversation ;;
  fold_right (fun msg rest => show_turn msg ;; rest) (ret tt) conv.

(** One run of the script.  [st.chat_input] gives [None] or the text the
    user submitted; line 121 tests its truthiness. *)
Definition script_run (user_input : option string) : M unit :=
  show_history ;;
  match user_input with
  | Some text => if String.eqb text EmptyString then ret tt else process_turn text
  | None => ret tt
  end.

(** A session: the script runs once per interaction, on the state the
    previous run left. *)
Definition run_session (inputs : list (option string)) (w : world) : world :=
  fold_left (fun w user_input => snd (script_run user_input w)) inputs w.

End Script.

(** ** Concrete services and responses, used to run the script *)

(** The text an f-string gives a string value; other values are not
    rendered by these sample services. *)
Definition sample_str (v : pyval) : string :=
  match v with
  | PyStr s => s
  | _ => "<value>"
  end.

(** A response of [generate_content] of the expected shape:
    [response.candidates[0].content.parts[0].text == text]. *)
Definition text_response (text : string) : pyval :=
  PyObj [("candidates",
          PyList [PyObj [("content", PyObj [("parts", PyList [PyObj [("text", PyStr text)]])])]])].

(** A match of the index: [{'id': id, 'score': sc, 'metadata': {...}}]. *)
Definition index_match (id : string) (sc : float) (doc body : string) : pyval :=
  PyDict [("id", PyStr id); ("score", PyFloat sc);
          ("metadata", PyDict [("texto", PyStr body); ("documento", PyStr doc)])].

Definition example_matches : list pyval :=
  [ index_match "a" 0.91 "Apartado 1" "primero";
    index_match "b" 0.73 "Apartado 2" "segundo";
    index_match "c" 0.40 "Apartado 3" "tercero";
    index_match "d" 0.60 "Apartado 4" "cuarto" ].

Definition example_vector : pyval := PyList [PyFloat 0.25; PyFloat (-0.5)].

(** Every service answers, and the index returns [example_matches]. *)
Definition working_services : services :=
  mk_services
    (fun _ prompt => Ok (text_response "respuesta"))
    (fun _ _ => Ok (PyDict [("embedding", example_vector)]))
    (fun _ _ _ => Ok (PyDict [("matches", PyList example_matches)]))
    (fun s => s)
    sample_str.

(** Both model services are down: every call raises. *)
Definition failing_services : services :=
  mk_services
    (fun _ _ => Raise (mk_exn ServiceError "503 Service Unavailable"))
    (fun _ _ => Raise (mk_exn ServiceError "503 Service Unavailable"))
    (fun _ _ _ => Ok (PyDict [("matches", PyList example_matches)]))
    (fun s => s)
    sample_str.

(** The embedding service answers with an empty vector. *)
Definition empty_vector_services : services :=
  mk_services
    (fun _ prompt => Ok (text_response "respuesta"))
    (fun _ _ => Ok (PyDict [("embedding", PyList [])]))
    (fun _ _ _ => Ok (PyDict [("matches", PyList example_matches)]))
    (fun s => s)
    sample_str.

(** * Properties *)

(** ** Reasoning about runs

    [extends w w1]: [w1] is reached from [w] by external effects only.
    [runs_from w P Q m]: from every such world, [m] completes without
    raising, leaves the conversation alone, adds to the trace only events
    satisfying [P], and returns a value satisfying [Q]. *)

Definition extends (w w1 : world) : Prop :=
  conversation w1 = conversation w /\ exists evs, trace w1 = trace w ++ evs.

Definition runs_from (w : world) {A} (P : event -> Prop) (Q : A -> Prop) (m : M A) : Prop :=
  forall w1, extends w w1 ->
    exists a evs,
      m w1 = (Ok a, mk_world (conversation w1) (trace w1 ++ evs)) /\ Forall P evs /\ Q a.

(** Event classes. *)
Definition generation_event (prompt : string) (ev : event) : Prop :=
  match ev with
  | GenerateCall p => p = prompt
  | Sleep _ | StWarning _ => True
  | _ => False
  end.

Definition embedding_event (text : string) (ev : event) : Prop :=
  match ev with
  | EmbedCall t => t = text
  | Sleep _ | StWarning _ => True
  | _ => False
  end.

Definition not_index_query (ev : event) : Prop :=
  match ev with
  | IndexQuery _ _ => False
  | _ => True
  end.

(** What the script shows in the page. *)
Definition presentation_event (ev : event) : Prop :=
  match ev with
  | StChatMessage _ | StMarkdown _ | StInfo _ | StFragmentCard _ => True
  | _ => False
  end.

(** Every call of the language model in the events is made with [prompt]. *)
Definition generates_only (prompt : string) (ev : event) : Prop :=
  match ev with
  | GenerateCall p => p = prompt
  | _ => True
  end.

Definition is_generate_call (ev : event) : bool :=
  match ev with GenerateCall _ => true | _ => false end.

Definition is_embed_call (ev : event) : bool :=
  match ev with EmbedCall _ => true | _ => false end.

(** Number of calls made to each model service in a trace. *)
Definition generate_calls (tr : list event) : nat := List.length (filter is_generate_call tr).
Definition embed_calls (tr : list event) : nat := List.length (filter is_embed_call tr).

(** What one attempt of a wrapper comes to, given the service's outcome:
    the value returned, or a failure (an exception, or a response of the
    wrong shape) followed by the next attempt. *)
Definition generation_outcome (svc : services) (tr : list event) (prompt : string)
  : result (option string) :=
  rbind (generate_content svc tr prompt) (extract_text (strip svc)).

Definition embedding_outcome (svc : services) (tr : list event) (text : string)
  : result (option pyval) :=
  rbind (embed_content svc tr text) extract_embedding.

Definition attempt_fails {A} (r : result (option A)) : bool :=
  match r with
  | Ok (Some _) => false
  | _ => true
  end.

(** [f.score >= MIN_SIMILARITY_SCORE], as Python evaluates it. *)
Definition above_threshold (f : fragment) : Prop :=
  py_ge_float (score f) MIN_SIMILARITY_SCORE = Ok true.

Definition turn_above_threshold (t : turn) : Prop :=
  match fragments t with
  | Some frs => Forall above_threshold frs
  | None => True
  end.

(** An input that line 121 lets through. *)
Definition submitted (user_input : option string) : bool :=
  match user_input with
  | Some text => negb (String.eqb text EmptyString)
  | None => false
  end.

(** User turn, assistant turn, user turn, assistant turn, ... *)
Fixpoint alternating (conv : list turn) : bool :=
  match conv with
  | [] => true
  | u :: a :: rest =>
      match turn_role u, turn_role a with
      | Usuario, Asistente => alternating rest
      | _, _ => false
      end
  | _ => false
  end.

(** What one match contributes to [retrieved], and the matches the loop
    gets through before one of them raises. *)
Definition kept (m : pyval) : list fragment :=
  match match_step m with
  | Ok (Some f) => [f]
  | _ => []
  end.

Fixpoint readable_prefix (ms : list pyval) : list pyval :=
  match ms with
  | [] => []
  | m :: rest =>
      match match_step m with
      | Raise _ => []
      | Ok _ => m :: readable_prefix rest
      end
  end.


(** A well-formed match, as the index documents it. *)
Record scored_passage : Type := mk_passage {
  passage_id : string;
  passage_score : float;
  passage_doc : string;
  passage_body : string
}.

Definition match_of (p : scored_passage) : pyval :=
  index_match (passage_id p) (passage_score p) (passage_doc p) (passage_body p).

Definition fragment_of (p : scored_passage) : fragment :=
  mk_fragment (PyStr (passage_body p)) (PyStr (passage_doc p)) (PyFloat (passage_score p)).

(** The filter as the specification words it: keep a match only if
    [score >= MIN_SIMILARITY_SCORE], in the order the index returned. *)
Definition spec_filter_by_score (ps : list scored_passage) : list fragment :=
  map fragment_of (filter (fun p => PrimFloat.leb MIN_SIMILARITY_SCORE (passage_score p)) ps).

Definition query_response (ps : list scored_passage) : pyval :=
  PyDict [("matches", PyList (map match_of ps))].

(** The index is down; the model services answer. *)
Definition index_down_services : services :=
  mk_services
    (fun _ prompt => Ok (text_response "respuesta"))
    (fun _ _ => Ok (PyDict [("embedding", example_vector)]))
    (fun _ _ _ => Raise (mk_exn ServiceError "timeout"))
    (fun s => s)
    sample_str.

(** The index returns a match whose score is [None] between two good ones. *)
Definition broken_match_services : services :=
  mk_services
    (fun _ prompt => Ok (text_response "respuesta"))
    (fun _ _ => Ok (PyDict [("embedding", example_vector)]))
    (fun _ _ _ => Ok (PyDict [("matches",
                                PyList ([index_match "a" 0.9 "Anexo" "uno"]
                                          ++ PyDict [("score", PyNone)]
                                          :: [index_match "b" 0.8 "Anexo" "dos"]))]))
    (fun s => s)
    sample_str.

(** The language model is down; embedding and index answer. *)
Definition generation_down_services : services :=
  mk_services
    (fun _ _ => Raise (mk_exn ServiceError "503 Service Unavailable"))
    (fun _ _ => Ok (PyDict [("embedding", example_vector)]))
    (fun _ _ _ => Ok (PyDict [("matches", PyList example_matches)]))
    (fun s => s)
    sample_str.

(** The embedding service is down; language model and index answer. *)
Definition embedding_down_services : services :=
  mk_services
    (fun _ prompt => Ok (text_response "respuesta"))
    (fun _ _ => Raise (mk_exn ServiceError "503 Service Unavailable"))
    (fun _ _ _ => Ok (PyDict [("matches", PyList example_matches)]))
    (fun s => s)
    sample_str.

(** The language model answers with blanks only; [strip] is modelled here
    by a function that removes them all. *)
Definition blank_answer_services : services :=
  mk_services
    (fun _ prompt => Ok (text_response "   "))
    (fun _ _ => Ok (PyDict [("embedding", PyList [])]))
    (fun _ _ _ => Ok (PyDict []))
    (fun s => if String.eqb s "   " then EmptyString else s)
    sample_str.

(** [steps_from w P Q m]: as [runs_from], except that [m] may also raise;
    [Q] then speaks of the value returned when it does not. *)
Definition steps_from (w : world) {A} (P : event -> Prop) (Q : A -> Prop) (m : M A) : Prop :=
  forall w1, extends w w1 ->
    exists r evs,
      m w1 = (r, mk_world (conversation w1) (trace w1 ++ evs)) /\ Forall P evs /\
      match r with Ok a => Q a | Raise _ => True end.

(** The fragments whose cards can all be formatted, and the conversations
    whose stored fragment panels can all be rendered again. *)
Definition renders (frs : list fragment) : bool :=
  forallb (fun f => match card_error f with None => true | Some _ => false end) frs.

Definition turn_renders (msg : turn) : bool :=
  match turn_role msg, fragments msg with
  | Asistente, Some frs => renders frs
  | _, _ => true
  end.

Definition history_renders (conv : list turn) : bool := forallb turn_renders conv.

(** A run reaches line 120 only if rendering the history did not raise; it
    then processes the input if one was submitted. *)
Definition processes (user_input : option string) (w : world) : bool :=
  submitted user_input && history_renders (conversation w).

(** The number of user turns a session processed, and the sessions all of
    whose runs completed. *)
Fixpoint turns_processed (svc : services) (inputs : list (option string)) (w : world) : nat :=
  match inputs with
  | [] => 0
  | user_input :: rest =>
      (if processes user_input w then 1 else 0)
      + turns_processed svc rest (snd (script_run svc user_input w))
  end.

Fixpoint session_completes (svc : services) (inputs : list (option string)) (w : world) : Prop :=
  match inputs with
  | [] => True
  | user_input :: rest =>
      fst (script_run svc user_input w) = Ok tt /\
      session_completes svc rest (snd (script_run svc user_input w))
  end.

(** The texts of the inputs that a session's runs read: a run reads its
    input only after rendering the history. *)
Fixpoint processed_texts (svc : services) (inputs : list (option string)) (w : world)
    : list string :=
  match inputs with
  | [] => []
  | user_input :: rest =>
      (if history_renders (conversation w)
       then match user_input with
            | Some text => if String.eqb text EmptyString then [] else [text]
            | None => []
            end
       else [])
      ++ processed_texts svc rest (snd (script_run svc user_input w))
  end.

(** The index returns one match, whose source label is an int of more than
    4300 digits. *)
Definition huge_label_services : services :=
  mk_services
    (fun _ prompt => Ok (text_response "respuesta"))
    (fun _ _ => Ok (PyDict [("embedding", example_vector)]))
    (fun _ _ _ => Ok (PyDict [("matches",
                                PyList [PyDict [("score", PyFloat 0.9);
                                                ("metadata", PyDict [("texto", PyStr "uno");
                                                                     ("documento", PyInt (10 ^ 4300))])]])]))
    (fun s => s)
    sample_str.

(** The index returns one match, whose score is an int beyond the range of
    floats. *)
Definition huge_score_services : services :=
  mk_services
    (fun _ prompt => Ok (text_response "respuesta"))
    (fun _ _ => Ok (PyDict [("embedding", example_vector)]))
    (fun _ _ _ => Ok (PyDict [("matches",
                                PyList [PyDict [("score", PyInt (2 ^ 1024));
                                                ("metadata", PyDict [("texto", PyStr "uno");
                                                                     ("documento", PyStr "Anexo")])]])]))
    (fun s => s)
    sample_str.

(** ** Further vocabulary: calls per service, rendering, session inputs *)

Inductive service : Type := Generation | Embedding | Index.

Definition is_call (s : service) (ev : event) : bool :=
  match s, ev with
  | Generation, GenerateCall _ => true
  | Embedding, EmbedCall _ => true
  | Index, IndexQuery _ _ => true
  | _, _ => false
  end.

(** Number of calls made to a service in a trace. *)
Definition calls_to (s : service) (tr : list event) : nat :=
  List.length (filter (is_call s) tr).

Definition is_sleep (ev : event) : bool :=
  match ev with Sleep _ => true | _ => false end.

Definition sleeps (tr : list event) : nat := List.length (filter is_sleep tr).

(** [m] adds at most [n] calls of service [s] to the trace. *)
Definition bounded (s : service) (n : nat) {A} (m : M A) : Prop :=
  forall w, calls_to s (trace (snd (m w))) <= calls_to s (trace w) + n.

(** The language model fails on its first two calls and answers from the
    third on. *)
Definition flaky_services : services :=
  mk_services
    (fun tr _ => if Nat.ltb (generate_calls tr) 2
                 then Raise (mk_exn ServiceError "429 Too Many Requests")
                 else Ok (text_response "respuesta"))
    (fun _ _ => Ok (PyDict [("embedding", example_vector)]))
    (fun _ _ _ => Ok (PyDict [("matches", PyList example_matches)]))
    (fun s => s)
    sample_str.

(** What one attempt, and one whole run, may cost in calls of service [s]. *)
Definition attempt_cost (target s : service) : nat :=
  match target, s with
  | Generation, Generation | Embedding, Embedding | Index, Index => 1
  | _, _ => 0
  end.

Definition turn_budget (s : service) : nat :=
  match s with
  | Generation => 9
  | Embedding => 3
  | Index => 1
  end.

(** What [display_fragments] shows for a list of fragments, and what the
    page shows for one stored turn (lines 112-116, 123-124, 177-180). *)
Definition display_events (frs : list fragment) : list event :=
  match frs with
  | [] => [StInfo "No se encontraron fragmentos relevantes del pliego."]
  | _ => map StFragmentCard frs
  end.

Definition turn_events (msg : turn) : list event :=
  match turn_role msg, fragments msg with
  | Usuario, _ => [StChatMessage "usuario"; StMarkdown (content msg)]
  | Asistente, Some frs =>
      [StChatMessage "asistente"; StMarkdown (content msg)] ++ display_events frs
  | Asistente, None => [StChatMessage "asistente"; StMarkdown (content msg)]
  end.

(** The texts a session's inputs submit, and the texts and answers a
    conversation holds. *)
Definition submitted_texts (inputs : list (option string)) : list string :=
  flat_map (fun user_input =>
              match user_input with
              | Some text => if String.eqb text EmptyString then [] else [text]
              | None => []
              end) inputs.

Definition is_user_turn (msg : turn) : bool :=
  match turn_role msg with Usuario => true | Asistente => false end.

Definition user_texts (conv : list turn) : list string :=
  map content (filter is_user_turn conv).

Definition assistant_turns (conv : list turn) : list turn :=
  filter (fun msg => negb (is_user_turn msg)) conv.

(** One line of the formatted history (line 75). *)
Definition history_line (msg : turn) : string :=
  role_str (turn_role msg) +++ ": " +++ content msg.

(** The prompts one turn may send to the language model: the expansion
    prompt, a synthesis prompt, or the final prompt over the history [conv]. *)
Definition turn_prompt (conv : list turn) (text prompt : string) : Prop :=
  prompt = expand_prompt text \/
  (exists ctx, prompt = synth_prompt ctx text) \/
  (exists ctx, prompt = final_prompt (format_history conv) ctx text).

Definition prompts_of_turn (conv : list turn) (text : string) (ev : event) : Prop :=
  match ev with
  | GenerateCall prompt => turn_prompt conv text prompt
  | _ => True
  end.

(** Events the body of a turn may produce, over the history [conv]: calls
    of the three services, sleeps, notices and prints, but nothing of the
    chat rendering. *)
Definition turn_event (conv : list turn) (text : string) (ev : event) : Prop :=
  match ev with
  | GenerateCall prompt => turn_prompt conv text prompt
  | IndexQuery _ k => k = TOP_K
  | EmbedCall _ | Sleep _ | StWarning _ | StError _ | Stdout _ => True
  | StInfo _ | StChatMessage _ | StMarkdown _ | StFragmentCard _ => False
  end.

(** Events of the retrieval stage for the vector [v]. *)
Definition retrieval_event (v : pyval) (ev : event) : Prop :=
  match ev with
  | IndexQuery v' k => v' = v /\ k = TOP_K
  | StError _ => True
  | _ => False
  end.

(** The context block of the synthesis prompt (line 152). *)
Definition fragments_context (svc : services) (retrieved : list fragment) : string :=
  join (nl +++ "---" +++ nl)
    (map (fun f => "[" +++ py_str svc (documento f) +++ "]: " +++ py_str svc (texto f)) retrieved).


Lemma extends_refl w : extends w w.
Proof. split; [reflexivity | exists []; now rewrite app_nil_r]. Qed.

Lemma extends_step w w1 evs :
  extends w w1 -> extends w (mk_world (conversation w1) (trace w1 ++ evs)).
Proof.
  intros [Hc [evs0 Ht]]. split; simpl; [exact Hc |].
  exists (evs0 ++ evs). now rewrite Ht, app_assoc.
Qed.

Lemma extends_trans w w1 w2 : extends w w1 -> extends w1 w2 -> extends w w2.
Proof.
  intros [Hc1 [e1 Ht1]] [Hc2 [e2 Ht2]]. split; [congruence |].
  exists (e1 ++ e2). now rewrite Ht2, Ht1, app_assoc.
Qed.

Lemma world_eta w : mk_world (conversation w) (trace w) = w.
Proof. now destruct w. Qed.

Lemma runs_from_later w w1 {A} P Q (m : M A) :
  extends w w1 -> runs_from w P Q m -> runs_from w1 P Q m.
Proof. intros H Hm w2 H2. apply Hm. eapply extends_trans; eassumption. Qed.

Lemma runs_weaken w {A} (P P' : event -> Prop) (Q Q' : A -> Prop) (m : M A) :
  (forall ev, P ev -> P' ev) -> (forall a, Q a -> Q' a) ->
  runs_from w P Q m -> runs_from w P' Q' m.
Proof.
  intros HP HQ Hm w1 H1. destruct (Hm w1 H1) as (a & evs & E & F & q).
  exists a, evs. repeat split; auto.
  eapply Forall_impl; [| exact F]. exact HP.
Qed.

Lemma runs_ret w {A} P (Q : A -> Prop) (a : A) : Q a -> runs_from w P Q (ret a).
Proof.
  intros q w1 _. exists a, []. unfold ret. rewrite app_nil_r, world_eta. auto.
Qed.

Lemma runs_emit w (P : event -> Prop) ev : P ev -> runs_from w P (fun _ => True) (emit ev).
Proof.
  intros p w1 _. exists tt, [ev]. unfold emit. auto.
Qed.

Lemma runs_get_conversation w P :
  runs_from w P (fun conv => conv = conversation w) get_conversation.
Proof.
  intros w1 [Hc _]. exists (conversation w1), []. unfold get_conversation.
  rewrite app_nil_r, world_eta. auto.
Qed.

Lemma runs_bind w {A B} P (Q1 : A -> Prop) (Q2 : B -> Prop) (m : M A) (k : A -> M B) :
  runs_from w P Q1 m ->
  (forall a, Q1 a -> runs_from w P Q2 (k a)) ->
  runs_from w P Q2 (bind m k).
Proof.
  intros Hm Hk w1 H1.
  destruct (Hm w1 H1) as (a & evs & E & F & q).
  destruct (Hk a q _ (extends_step _ _ evs H1)) as (b & evs' & E' & F' & q').
  exists b, (evs ++ evs'). unfold bind. rewrite E, E'. simpl.
  rewrite app_assoc. repeat split; auto. apply Forall_app; auto.
Qed.

Lemma runs_try_except w {A} P (Q : A -> Prop) (body : M A) handler :
  runs_from w P Q body -> runs_from w P Q (try_except body handler).
Proof.
  intros Hm w1 H1. destruct (Hm w1 H1) as (a & evs & E & F & q).
  exists a, evs. unfold try_except. rewrite E. auto.
Qed.

Lemma runs_for_range w {A} P (Q : A -> Prop) (body : nat -> M (option A)) (after : M A) :
  (forall k, runs_from w P (fun r => match r with Some a => Q a | None => True end) (body k)) ->
  runs_from w P Q after ->
  forall n k, runs_from w P Q (for_range k n body after).
Proof.
  intros Hbody Hafter. induction n as [| n IH]; intros k; simpl.
  - exact Hafter.
  - eapply runs_bind; [apply Hbody |].
    intros [a |] q; [now apply runs_ret | apply IH].
Qed.

(** ** The retrying wrappers *)

Ltac run_here evs :=
  eexists; exists evs; simpl; rewrite <- ?app_assoc; simpl;
  repeat split; auto; repeat constructor; auto.

Section Wrappers.

Variable svc : services.

Lemma generate_attempt_runs w prompt k :
  runs_from w (generation_event prompt) (fun _ => True) (generate_attempt svc prompt k).
Proof.
  intros w1 _. unfold generate_attempt, try_except, bind, call_generate, lift, emit, ret.
  destruct (generate_content svc (trace w1) prompt) as [response | e]; simpl.
  - destruct (extract_text (strip svc) response) as [[s |] | e]; simpl.
    + run_here [GenerateCall prompt].
    + run_here [GenerateCall prompt; Sleep 1%Z].
    + run_here [GenerateCall prompt;
                StWarning ("Error en intento " +++ str_of_nat (k + 1) +++ ": " +++ exn_str e);
                Sleep 1%Z].
  - run_here [GenerateCall prompt;
              StWarning ("Error en intento " +++ str_of_nat (k + 1) +++ ": " +++ exn_str e);
              Sleep 1%Z].
Qed.

Lemma embed_attempt_runs w text k :
  runs_from w (embedding_event text) (fun _ => True) (embed_attempt svc text k).
Proof.
  intros w1 _. unfold embed_attempt, try_except, bind, call_embed, lift, emit, ret.
  destruct (embed_content svc (trace w1) text) as [response | e]; simpl.
  - destruct (extract_embedding response) as [[v |] | e]; simpl.
    + run_here [EmbedCall text].
    + run_here [EmbedCall text; Sleep 1%Z].
    + run_here [EmbedCall text;
                StWarning ("Error al generar embedding (intento " +++ str_of_nat (k + 1) +++ "): " +++ exn_str e);
                Sleep 1%Z].
  - run_here [EmbedCall text;
              StWarning ("Error al generar embedding (intento " +++ str_of_nat (k + 1) +++ "): " +++ exn_str e);
              Sleep 1%Z].
Qed.

(** The wrappers always return: no exception leaves them. *)
Lemma safe_generate_content_runs w prompt max_retries :
  runs_from w (generation_event prompt) (fun _ => True)
    (safe_generate_content svc prompt max_retries).
Proof.
  unfold safe_generate_content. apply runs_for_range.
  - intros k. eapply runs_weaken; [| | apply generate_attempt_runs]; auto.
    now intros [a |] _.
  - now apply runs_ret.
Qed.

Lemma safe_embed_content_runs w text max_retries :
  runs_from w (embedding_event text) (fun _ => True)
    (safe_embed_content svc text max_retries).
Proof.
  unfold safe_embed_content. apply runs_for_range.
  - intros k. eapply runs_weaken; [| | apply embed_attempt_runs]; auto.
    now intros [a |] _.
  - now apply runs_ret.
Qed.

(** An attempt on which the service fails returns nothing. *)
Lemma generate_attempt_fails w prompt k :
  (forall evs, attempt_fails (generation_outcome svc (trace w ++ evs) prompt) = true) ->
  runs_from w (generation_event prompt) (fun r => r = None) (generate_attempt svc prompt k).
Proof.
  intros H w1 H1. destruct (generate_attempt_runs w prompt k w1 H1) as (r & evs & E & F & _).
  exists r, evs. repeat split; auto.
  destruct H1 as [_ [evs1 Ht]]. specialize (H evs1). rewrite <- Ht in H.
  revert E H. unfold generation_outcome, generate_attempt, try_except, bind, call_generate, lift, emit, ret.
  destruct (generate_content svc (trace w1) prompt) as [response | e]; simpl.
  - destruct (extract_text (strip svc) response) as [[s |] | e]; simpl; intros E H;
      congruence.
  - intros E _. congruence.
Qed.

Lemma embed_attempt_fails w text k :
  (forall evs, attempt_fails (embedding_outcome svc (trace w ++ evs) text) = true) ->
  runs_from w (embedding_event text) (fun r => r = None) (embed_attempt svc text k).
Proof.
  intros H w1 H1. destruct (embed_attempt_runs w text k w1 H1) as (r & evs & E & F & _).
  exists r, evs. repeat split; auto.
  destruct H1 as [_ [evs1 Ht]]. specialize (H evs1). rewrite <- Ht in H.
  revert E H. unfold embedding_outcome, embed_attempt, try_except, bind, call_embed, lift, emit, ret.
  destruct (embed_content svc (trace w1) text) as [response | e]; simpl.
  - destruct (extract_embedding response) as [[v |] | e]; simpl; intros E H;
      congruence.
  - intros E _. congruence.
Qed.

(** When every attempt fails, the loop runs out and the fallback is returned. *)
Lemma safe_generate_content_exhausted w prompt max_retries :
  (forall evs, attempt_fails (generation_outcome svc (trace w ++ evs) prompt) = true) ->
  runs_from w (generation_event prompt) (fun s => s = GENERATION_FALLBACK)
    (safe_generate_content svc prompt max_retries).
Proof.
  intros H. unfold safe_generate_content. apply runs_for_range.
  - intros k. eapply runs_weaken; [| | apply generate_attempt_fails; exact H]; auto.
    intros [a |] E; [discriminate | exact I].
  - now apply runs_ret.
Qed.

Lemma safe_embed_content_exhausted w text max_retries :
  (forall evs, attempt_fails (embedding_outcome svc (trace w ++ evs) text) = true) ->
  runs_from w (embedding_event text) (fun v => v = PyNone)
    (safe_embed_content svc text max_retries).
Proof.
  intros H. unfold safe_embed_content. apply runs_for_range.
  - intros k. eapply runs_weaken; [| | apply embed_attempt_fails; exact H]; auto.
    intros [a |] E; [discriminate | exact I].
  - now apply runs_ret.
Qed.

End Wrappers.

(** ** Counting the calls of a retry loop *)

Lemma for_range_calls {A} (count : list event -> nat) (body : nat -> M (option A)) (after : M A) :
  (forall k w, count (trace (snd (body k w))) <= count (trace w) + 1) ->
  (forall w, count (trace (snd (after w))) = count (trace w)) ->
  forall n k w, count (trace (snd (for_range k n body after w))) <= count (trace w) + n.
Proof.
  intros Hbody Hafter. induction n as [| n IH]; intros k w; simpl.
  - rewrite Hafter. lia.
  - unfold bind. specialize (Hbody k w).
    destruct (body k w) as [[[a |] | e] w']; simpl in *; try lia.
    specialize (IH (S k) w'). lia.
Qed.

Lemma generate_calls_snoc tr ev :
  generate_calls (tr ++ [ev]) = generate_calls tr + (if is_generate_call ev then 1 else 0).
Proof.
  unfold generate_calls. rewrite filter_app, length_app. simpl.
  now destruct (is_generate_call ev).
Qed.

Lemma embed_calls_snoc tr ev :
  embed_calls (tr ++ [ev]) = embed_calls tr + (if is_embed_call ev then 1 else 0).
Proof.
  unfold embed_calls. rewrite filter_app, length_app. simpl.
  now destruct (is_embed_call ev).
Qed.

(** Each attempt calls its service exactly once. *)
Lemma generate_attempt_calls svc prompt k w :
  generate_calls (trace (snd (generate_attempt svc prompt k w))) = generate_calls (trace w) + 1.
Proof.
  unfold generate_attempt, try_except, bind, call_generate, lift, emit, ret.
  destruct (generate_content svc (trace w) prompt) as [response | e]; simpl.
  - destruct (extract_text (strip svc) response) as [[s |] | e]; simpl;
      rewrite ?generate_calls_snoc; simpl; lia.
  - rewrite ?generate_calls_snoc; simpl; lia.
Qed.

Lemma embed_attempt_calls svc text k w :
  embed_calls (trace (snd (embed_attempt svc text k w))) = embed_calls (trace w) + 1.
Proof.
  unfold embed_attempt, try_except, bind, call_embed, lift, emit, ret.
  destruct (embed_content svc (trace w) text) as [response | e]; simpl.
  - destruct (extract_embedding response) as [[v |] | e]; simpl;
      rewrite ?embed_calls_snoc; simpl; lia.
  - rewrite ?embed_calls_snoc; simpl; lia.
Qed.

(** ** Retrieval filtering *)

Lemma match_step_above m f : match_step m = Ok (Some f) -> above_threshold f.
Proof.
  unfold match_step, above_threshold, rbind.
  destruct (py_get m "score" (PyInt 0)) as [sc | e]; [| discriminate].
  destruct (py_ge_float sc MIN_SIMILARITY_SCORE) as [[|] | e] eqn:Hge; try discriminate.
  destruct (py_get m "metadata" (PyDict [])) as [meta | e]; [| discriminate].
  destruct (py_get meta "texto" (PyStr EmptyString)) as [t | e]; [| discriminate].
  destruct (py_get meta "documento" (PyStr EmptyString)) as [d | e]; [| discriminate].
  intros E. injection E as <-. exact Hge.
Qed.

Lemma collect_matches_kept ms : forall retrieved,
  fst (collect_matches ms retrieved) = retrieved ++ flat_map kept (readable_prefix ms).
Proof.
  induction ms as [| m rest IH]; intros retrieved; simpl.
  - now rewrite app_nil_r.
  - assert (Hk : kept m = match match_step m with Ok (Some f) => [f] | _ => [] end)
      by reflexivity.
    destruct (match_step m) as [[f |] | e]; simpl; rewrite ?Hk.
    + rewrite IH. now rewrite <- app_assoc.
    + now rewrite IH.
    + now rewrite app_nil_r.
Qed.

Lemma readable_prefix_all ms :
  (forall m, In m ms -> exists r, match_step m = Ok r) -> readable_prefix ms = ms.
Proof.
  induction ms as [| m rest IH]; intros H; simpl; [reflexivity |].
  destruct (H m (or_introl eq_refl)) as [r ->].
  f_equal. apply IH. intros m' Hin. apply H. now right.
Qed.

Lemma collect_matches_complete ms : forall retrieved,
  (forall m, In m ms -> exists r, match_step m = Ok r) ->
  snd (collect_matches ms retrieved) = None.
Proof.
  induction ms as [| m rest IH]; intros retrieved H; simpl; [reflexivity |].
  destruct (H m (or_introl eq_refl)) as [[f |] ->]; apply IH; intros m' Hin; apply H; now right.
Qed.

Lemma kept_above m : Forall above_threshold (kept m).
Proof.
  unfold kept. destruct (match_step m) as [[f |] | e] eqn:E; constructor.
  - eapply match_step_above; eassumption.
  - constructor.
Qed.

Lemma collect_matches_above ms :
  Forall above_threshold (fst (collect_matches ms [])).
Proof.
  rewrite collect_matches_kept. simpl.
  induction (readable_prefix ms) as [| m rest IH]; simpl; [constructor |].
  apply Forall_app. split; [apply kept_above | exact IH].
Qed.

Lemma scan_response_above query_res : Forall above_threshold (fst (scan_response query_res)).
Proof.
  unfold scan_response.
  destruct (rbind (py_get query_res "matches" (PyList [])) (fun matches => py_iter matches)) as [ms | e].
  - apply collect_matches_above.
  - constructor.
Qed.

Lemma match_step_passage p :
  match_step (match_of p) =
  Ok (if PrimFloat.leb MIN_SIMILARITY_SCORE (passage_score p) then Some (fragment_of p) else None).
Proof.
  unfold match_step, match_of, index_match, fragment_of. simpl.
  now destruct (PrimFloat.leb MIN_SIMILARITY_SCORE (passage_score p)).
Qed.

Lemma collect_matches_passages ps : forall retrieved,
  collect_matches (map match_of ps) retrieved = (retrieved ++ spec_filter_by_score ps, None).
Proof.
  unfold spec_filter_by_score.
  induction ps as [| p rest IH]; intros retrieved; simpl.
  - now rewrite app_nil_r.
  - rewrite match_step_passage.
    destruct (PrimFloat.leb MIN_SIMILARITY_SCORE (passage_score p)); simpl.
    + rewrite IH. now rewrite <- app_assoc.
    + apply IH.
Qed.

(** ** Computations that may raise *)

Lemma steps_of_runs w {A} P (Q : A -> Prop) (m : M A) : runs_from w P Q m -> steps_from w P Q m.
Proof.
  intros H w1 H1. destruct (H w1 H1) as (a & evs & E & F & q).
  exists (Ok a), evs. auto.
Qed.

Lemma steps_weaken w {A} (P P' : event -> Prop) (Q Q' : A -> Prop) (m : M A) :
  (forall ev, P ev -> P' ev) -> (forall a, Q a -> Q' a) ->
  steps_from w P Q m -> steps_from w P' Q' m.
Proof.
  intros HP HQ Hm w1 H1. destruct (Hm w1 H1) as (r & evs & E & F & q).
  exists r, evs. repeat split; auto.
  - eapply Forall_impl; [| exact F]. exact HP.
  - destruct r; auto.
Qed.

Lemma steps_raise w {A} P (Q : A -> Prop) e : steps_from w P Q (lift (Raise e)).
Proof.
  intros w1 _. exists (Raise e), []. unfold lift. rewrite app_nil_r, world_eta. auto.
Qed.

Lemma steps_bind w {A B} P (Q1 : A -> Prop) (Q2 : B -> Prop) (m : M A) (k : A -> M B) :
  steps_from w P Q1 m ->
  (forall a, Q1 a -> steps_from w P Q2 (k a)) ->
  steps_from w P Q2 (bind m k).
Proof.
  intros Hm Hk w1 H1.
  destruct (Hm w1 H1) as ([a | e] & evs & E & F & q).
  - destruct (Hk a q _ (extends_step _ _ evs H1)) as (r & evs' & E' & F' & q').
    exists r, (evs ++ evs'). unfold bind. rewrite E, E'. simpl.
    rewrite app_assoc. repeat split; auto. apply Forall_app; auto.
  - exists (Raise e), evs. unfold bind. rewrite E. auto.
Qed.

(** The outer handler turns every outcome of the body into an answer. *)
Lemma guarded_runs w P (Q : string * list fragment -> Prop) body :
  steps_from w P Q body ->
  (forall e, Q (error_answer e, [])) ->
  runs_from w P Q (guarded body).
Proof.
  intros Hb Hq w1 H1. destruct (Hb w1 H1) as ([a | e] & evs & E & F & q);
    unfold guarded, try_except; rewrite E.
  - exists a, evs. auto.
  - exists (error_answer e, []), evs. unfold ret. auto.
Qed.

(** ** The stages of one turn *)

Lemma generation_event_no_query prompt ev : generation_event prompt ev -> not_index_query ev.
Proof. now destruct ev. Qed.

Lemma embedding_event_no_query text ev : embedding_event text ev -> not_index_query ev.
Proof. now destruct ev. Qed.

Lemma generation_event_only prompt ev : generation_event prompt ev -> generates_only prompt ev.
Proof. now destruct ev. Qed.

Lemma presentation_event_no_query ev : presentation_event ev -> not_index_query ev.
Proof. now destruct ev. Qed.

Lemma show_card_steps w f : steps_from w presentation_event (fun _ => True) (show_card f).
Proof.
  unfold show_card. destruct (card_error f); [apply steps_raise |].
  apply steps_of_runs, runs_emit. exact I.
Qed.

Lemma fragment_cards_steps w frs :
  steps_from w presentation_event (fun _ => True)
    (fold_right (fun f rest => show_card f ;; rest) (ret tt) frs).
Proof.
  induction frs as [| f rest IH]; simpl.
  - apply steps_of_runs. now apply runs_ret.
  - eapply steps_bind; [apply show_card_steps | intros _ _; exact IH].
Qed.

Lemma display_fragments_steps w frs :
  steps_from w presentation_event (fun _ => True) (display_fragments frs).
Proof.
  destruct frs as [| f rest].
  - apply steps_of_runs, runs_emit. exact I.
  - apply (fragment_cards_steps w (f :: rest)).
Qed.

(** Fragments that render are all shown, one card each. *)
Lemma fragment_cards_run w frs :
  renders frs = true ->
  runs_from w presentation_event (fun _ => True)
    (fold_right (fun f rest => show_card f ;; rest) (ret tt) frs).
Proof.
  induction frs as [| f rest IH]; simpl; intros Hr.
  - now apply runs_ret.
  - apply andb_true_iff in Hr. destruct Hr as [Hf Hrest].
    eapply runs_bind with (Q1 := fun _ => True); [| intros _ _; exact (IH Hrest)].
    unfold show_card. destruct (card_error f); [discriminate |].
    apply runs_emit. exact I.
Qed.

Lemma display_fragments_runs w frs :
  renders frs = true ->
  runs_from w presentation_event (fun _ => True) (display_fragments frs).
Proof.
  destruct frs as [| f rest]; intros Hr.
  - apply runs_emit. exact I.
  - apply (fragment_cards_run w (f :: rest) Hr).
Qed.

(** A fragment that does not render stops the rendering with an exception. *)
Lemma fragment_cards_fail frs : forall w,
  renders frs = false ->
  exists e, fst (fold_right (fun f rest => show_card f ;; rest) (ret tt) frs w) = Raise e.
Proof.
  induction frs as [| f rest IH]; simpl; intros w Hr; [discriminate |].
  unfold bind, show_card. destruct (card_error f) as [e |]; simpl in *.
  - now exists e.
  - apply IH. exact Hr.
Qed.

Lemma display_fragments_fail frs w :
  renders frs = false -> exists e, fst (display_fragments frs w) = Raise e.
Proof.
  destruct frs as [| f rest]; [discriminate |].
  apply (fragment_cards_fail (f :: rest) w).
Qed.

Lemma show_turn_steps w msg : steps_from w presentation_event (fun _ => True) (show_turn msg).
Proof.
  unfold show_turn.
  eapply steps_bind; [apply steps_of_runs, runs_emit; exact I | intros _ _].
  eapply steps_bind; [apply steps_of_runs, runs_emit; exact I | intros _ _].
  destruct (turn_role msg); [apply steps_of_runs; now apply runs_ret |].
  destruct (fragments msg); [apply display_fragments_steps | apply steps_of_runs; now apply runs_ret].
Qed.

Lemma show_turn_runs w msg :
  turn_renders msg = true -> runs_from w presentation_event (fun _ => True) (show_turn msg).
Proof.
  unfold show_turn, turn_renders. intros Hr.
  eapply runs_bind with (Q1 := fun _ => True); [apply runs_emit; exact I | intros _ _].
  eapply runs_bind with (Q1 := fun _ => True); [apply runs_emit; exact I | intros _ _].
  destruct (turn_role msg); [now apply runs_ret |].
  destruct (fragments msg); [now apply display_fragments_runs | now apply runs_ret].
Qed.

Lemma show_turn_fail msg w :
  turn_renders msg = false -> exists e, fst (show_turn msg w) = Raise e.
Proof.
  unfold show_turn, turn_renders, bind, emit. simpl.
  destruct (turn_role msg); [discriminate |].
  destruct (fragments msg) as [frs |]; [| discriminate].
  intros Hr.
  match goal with |- context [display_fragments frs ?w1] =>
    destruct (display_fragments_fail frs w1 Hr) as [e He];
    destruct (display_fragments frs w1) as [r w2]
  end.
  simpl in *. subst r. now exists e.
Qed.

Lemma show_turns_steps w conv :
  steps_from w presentation_event (fun _ => True)
    (fold_right (fun msg rest => show_turn msg ;; rest) (ret tt) conv).
Proof.
  induction conv as [| msg rest IH]; simpl.
  - apply steps_of_runs. now apply runs_ret.
  - eapply steps_bind; [apply show_turn_steps | intros _ _; exact IH].
Qed.

Lemma show_turns_runs w conv :
  history_renders conv = true ->
  runs_from w presentation_event (fun _ => True)
    (fold_right (fun msg rest => show_turn msg ;; rest) (ret tt) conv).
Proof.
  induction conv as [| msg rest IH]; simpl; intros Hr.
  - now apply runs_ret.
  - apply andb_true_iff in Hr. destruct Hr as [Hm Hrest].
    eapply runs_bind with (Q1 := fun _ => True);
      [now apply show_turn_runs | intros _ _; exact (IH Hrest)].
Qed.

Lemma show_turns_fail conv : forall w,
  history_renders conv = false ->
  exists e, fst (fold_right (fun msg rest => show_turn msg ;; rest) (ret tt) conv w) = Raise e.
Proof.
  induction conv as [| msg rest IH]; simpl; intros w Hr; [discriminate |].
  unfold bind. destruct (turn_renders msg) eqn:Hm; simpl in Hr.
  - destruct (show_turn_runs w msg Hm w (extends_refl w)) as ([] & evs & E & _).
    rewrite E. apply IH. exact Hr.
  - destruct (show_turn_fail msg w Hm) as [e He].
    destruct (show_turn msg w) as [r w1]. simpl in *. subst r. now exists e.
Qed.

Lemma show_history_steps w : steps_from w presentation_event (fun _ => True) show_history.
Proof.
  unfold show_history. eapply steps_bind; [apply steps_of_runs, runs_get_conversation |].
  intros conv _. apply show_turns_steps.
Qed.

Lemma show_history_runs w :
  history_renders (conversation w) = true ->
  runs_from w presentation_event (fun _ => True) show_history.
Proof.
  intros Hr. unfold show_history. eapply runs_bind; [apply runs_get_conversation |].
  intros conv ->. now apply show_turns_runs.
Qed.

Lemma show_history_fail w :
  history_renders (conversation w) = false -> exists e, fst (show_history w) = Raise e.
Proof.
  intros Hr. unfold show_history, bind, get_conversation. now apply show_turns_fail.
Qed.

Section Stages.

Variable svc : services.

Lemma expand_query_runs w user_input :
  runs_from w not_index_query (fun _ => True) (expand_query svc user_input).
Proof.
  unfold expand_query.
  eapply runs_bind.
  - eapply runs_weaken; [apply generation_event_no_query | | apply safe_generate_content_runs].
    intros a q; exact q.
  - intros expanded _. eapply runs_bind; [apply runs_emit; exact I |].
    intros _ _. now apply runs_ret.
Qed.

(** A falsy query vector: the guard of line 138 skips the whole stage. *)
Lemma retrieve_falsy query_vector :
  py_truthy query_vector = false -> retrieve svc query_vector = ret [].
Proof. unfold retrieve. now intros ->. Qed.

Lemma retrieve_runs w query_vector :
  runs_from w (fun _ => True) (Forall above_threshold) (retrieve svc query_vector).
Proof.
  unfold retrieve. destruct (py_truthy query_vector); [| apply runs_ret; constructor].
  intros w1 _. unfold bind, try_except, call_index_query, ret, emit.
  destruct (index_query svc (trace w1) query_vector TOP_K) as [query_res | e]; simpl.
  - pose proof (scan_response_above query_res) as Ha.
    destruct (scan_response query_res) as [frs [e |]]; simpl in *.
    + run_here [IndexQuery query_vector TOP_K; StError ("Error al consultar Pinecone: " +++ exn_str e)].
    + run_here [IndexQuery query_vector TOP_K].
  - run_here [IndexQuery query_vector TOP_K; StError ("Error al consultar Pinecone: " +++ exn_str e)].
Qed.

Lemma synthesize_steps w user_input retrieved :
  steps_from w not_index_query (fun _ => True) (synthesize svc user_input retrieved).
Proof.
  unfold synthesize. destruct retrieved as [| f rest];
    [apply steps_of_runs; now apply runs_ret |].
  destruct (context_error (f :: rest)); [apply steps_raise |].
  apply steps_of_runs. eapply runs_bind.
  - eapply runs_weaken; [apply generation_event_no_query | | apply safe_generate_content_runs].
    intros a q; exact q.
  - intros s _. eapply runs_bind; [apply runs_emit; exact I |].
    intros _ _. now apply runs_ret.
Qed.

(** The answer shown is never the empty string (lines 167-169). *)
Lemma generate_answer_runs w user_input synthesized_context :
  runs_from w
    (generation_event
       (final_prompt (format_history (removelast (conversation w))) synthesized_context user_input))
    (fun answer => answer <> EmptyString)
    (generate_answer svc user_input synthesized_context).
Proof.
  unfold generate_answer. eapply runs_bind; [apply runs_get_conversation |].
  intros conv ->. eapply runs_bind; [apply safe_generate_content_runs |].
  intros answer _. destruct (String.eqb answer EmptyString) eqn:E; apply runs_ret.
  - discriminate.
  - now apply String.eqb_neq.
Qed.

Lemma answer_from_steps w user_input retrieved :
  steps_from w not_index_query (fun r => fst r <> EmptyString /\ snd r = retrieved)
    (answer_from svc user_input retrieved).
Proof.
  unfold answer_from.
  eapply steps_bind; [apply synthesize_steps |]. intros ctx _.
  apply steps_of_runs. eapply runs_bind.
  - eapply runs_weaken; [apply generation_event_no_query | | apply generate_answer_runs].
    intros a q; exact q.
  - intros answer Ha. now apply runs_ret.
Qed.

(** Without fragments nothing is formatted, and the last two stages
    complete. *)
Lemma answer_from_nil_runs w user_input :
  runs_from w not_index_query (fun r => fst r <> EmptyString /\ snd r = [])
    (answer_from svc user_input []).
Proof.
  unfold answer_from.
  eapply runs_bind with (Q1 := fun _ => True); [now apply runs_ret |]. intros ctx _.
  eapply runs_bind.
  - eapply runs_weaken; [apply generation_event_no_query | | apply generate_answer_runs].
    intros a q; exact q.
  - intros answer Ha. now apply runs_ret.
Qed.

Lemma answer_expanded_steps w user_input expanded_query :
  steps_from w (fun _ => True) (fun r => fst r <> EmptyString /\ Forall above_threshold (snd r))
    (answer_expanded svc user_input expanded_query).
Proof.
  unfold answer_expanded.
  eapply steps_bind.
  - apply steps_of_runs. eapply runs_weaken; [| | apply safe_embed_content_runs]; auto.
    intros a q; exact q.
  - intros query_vector _. eapply steps_bind; [apply steps_of_runs, retrieve_runs |].
    intros retrieved Hr.
    eapply steps_weaken; [| | apply answer_from_steps]; auto.
    intros [answer frs] [Ha Hf]; simpl in *. subst frs. auto.
Qed.

Lemma pipeline_steps w user_input :
  steps_from w (fun _ => True) (fun r => fst r <> EmptyString /\ Forall above_threshold (snd r))
    (pipeline svc user_input).
Proof.
  unfold pipeline. eapply steps_bind.
  - apply steps_of_runs. eapply runs_weaken; [| | apply expand_query_runs]; auto.
    intros a q; exact q.
  - intros expanded _. apply answer_expanded_steps.
Qed.

Lemma error_answer_not_empty e : error_answer e <> EmptyString.
Proof. unfold error_answer. discriminate. Qed.

(** Lines 127-173 always produce an answer and a list of fragments. *)
Lemma guarded_pipeline_runs w user_input :
  runs_from w (fun _ => True) (fun r => fst r <> EmptyString /\ Forall above_threshold (snd r))
    (guarded (pipeline svc user_input)).
Proof.
  apply guarded_runs; [apply pipeline_steps |].
  intros e. split; [apply error_answer_not_empty | constructor].
Qed.

(** When the embedding stage yields a falsy vector, the rest of the turn
    makes no index query and retrieves nothing. *)
Lemma answer_expanded_falsy w user_input expanded_query :
  runs_from w not_index_query (fun v => py_truthy v = false)
    (safe_embed_content svc expanded_query 3) ->
  runs_from w not_index_query (fun r => fst r <> EmptyString /\ snd r = [])
    (answer_expanded svc user_input expanded_query).
Proof.
  intros H. unfold answer_expanded.
  eapply runs_bind; [exact H |]. intros v Hv.
  rewrite (retrieve_falsy v Hv).
  eapply runs_bind with (Q1 := fun r => r = []); [now apply runs_ret |].
  intros r ->. apply answer_from_nil_runs.
Qed.

Lemma pipeline_falsy w user_input :
  (forall q, runs_from w not_index_query (fun v => py_truthy v = false)
               (safe_embed_content svc q 3)) ->
  runs_from w not_index_query (fun r => fst r <> EmptyString /\ snd r = [])
    (pipeline svc user_input).
Proof.
  intros H. unfold pipeline.
  eapply runs_bind; [apply expand_query_runs |].
  intros expanded _. apply answer_expanded_falsy, H.
Qed.

End Stages.
(** ** One run of the script, and a session *)

(** A submitted turn: both turns are stored before the fragments are
    rendered, so they stay even when that rendering raises. *)
Lemma process_turn_runs svc user_input w (P : event -> Prop) (Q : string * list fragment -> Prop) :
  (forall ev, presentation_event ev -> P ev) ->
  runs_from (mk_world (conversation w ++ [mk_turn Usuario user_input None]) (trace w)) P Q
    (guarded (pipeline svc user_input)) ->
  exists answer retrieved evs r,
    process_turn svc user_input w =
      (r,
       mk_world (conversation w ++ [mk_turn Usuario user_input None;
                                    mk_turn Asistente answer (Some retrieved)])
                (trace w ++ evs))
    /\ Forall P evs /\ Q (answer, retrieved)
    /\ (renders retrieved = true -> r = Ok tt)
    /\ (renders retrieved = false -> exists e, r = Raise e).
Proof.
  intros HP Hp.
  unfold process_turn, bind, append_turn, emit. simpl.
  match goal with |- context [guarded (pipeline svc user_input) ?w0] =>
    destruct (Hp w0) as ([answer retrieved] & evs & E & F & q)
  end.
  { split; simpl; [reflexivity |]. eexists. now rewrite <- app_assoc. }
  rewrite E. simpl.
  match goal with |- context [display_fragments retrieved ?w2] =>
    destruct (display_fragments_steps w2 retrieved w2 (extends_refl w2)) as (r & evs' & E' & F' & _);
    pose proof (fun H => display_fragments_runs w2 retrieved H w2 (extends_refl w2)) as Hok;
    pose proof (display_fragments_fail retrieved w2) as Hfail
  end.
  rewrite E' in *. simpl in *.
  exists answer, retrieved,
    ([StChatMessage "usuario"; StMarkdown user_input] ++ evs
       ++ [StChatMessage "asistente"; StMarkdown answer] ++ evs'), r.
  split; [repeat rewrite <- app_assoc; reflexivity |].
  split.
  { repeat (apply Forall_app; split); auto; repeat constructor;
      try (apply HP; exact I).
    eapply Forall_impl; [apply HP | exact F']. }
  split; [exact q |]. split.
  - intros Hr. destruct (Hok Hr) as ([] & evs2 & E2 & _). congruence.
  - exact Hfail.
Qed.

Lemma script_run_history_fails svc user_input w :
  history_renders (conversation w) = false ->
  exists e evs,
    script_run svc user_input w = (Raise e, mk_world (conversation w) (trace w ++ evs)) /\
    Forall presentation_event evs.
Proof.
  intros Hr. unfold script_run, bind.
  destruct (show_history_steps w w (extends_refl w)) as (r & evs & E & F & _).
  destruct (show_history_fail w Hr) as [e He]. rewrite E in *. simpl in He. subst r.
  now exists e, evs.
Qed.

Lemma script_run_idle svc user_input w :
  submitted user_input = false ->
  history_renders (conversation w) = true ->
  exists evs, script_run svc user_input w = (Ok tt, mk_world (conversation w) (trace w ++ evs))
              /\ Forall presentation_event evs.
Proof.
  intros Hs Hr. unfold script_run, bind.
  destruct (show_history_runs w Hr w (extends_refl w)) as ([] & evs & E & F & _). rewrite E.
  exists evs. split; [| exact F].
  destruct user_input as [text |]; simpl in *; [| reflexivity].
  destruct (String.eqb text EmptyString); [reflexivity | discriminate].
Qed.

Lemma script_run_turn svc text w (P : event -> Prop) (Q : string * list fragment -> Prop) :
  text <> EmptyString ->
  history_renders (conversation w) = true ->
  (forall ev, presentation_event ev -> P ev) ->
  (forall conv, runs_from (mk_world conv (trace w)) P Q (guarded (pipeline svc text))) ->
  exists answer retrieved evs r,
    script_run svc (Some text) w =
      (r,
       mk_world (conversation w ++ [mk_turn Usuario text None;
                                    mk_turn Asistente answer (Some retrieved)])
                (trace w ++ evs))
    /\ Forall P evs /\ Q (answer, retrieved)
    /\ (renders retrieved = true -> r = Ok tt)
    /\ (renders retrieved = false -> exists e, r = Raise e).
Proof.
  intros Hne Hr HP Hp. unfold script_run, bind.
  destruct (show_history_runs w Hr w (extends_refl w)) as ([] & evs0 & E & F & _). rewrite E.
  apply String.eqb_neq in Hne. rewrite Hne.
  destruct (process_turn_runs svc text (mk_world (conversation w) (trace w ++ evs0)) P Q HP)
    as (answer & retrieved & evs & r & E' & F' & q & Hok & Hfail).
  { simpl. eapply runs_from_later; [| apply Hp].
    split; simpl; [reflexivity | now exists evs0]. }
  rewrite E'. simpl. exists answer, retrieved, (evs0 ++ evs), r.
  repeat split; auto.
  - now rewrite app_assoc.
  - apply Forall_app. split; [| exact F'].
    eapply Forall_impl; [apply HP | exact F].
Qed.

(** Whatever the services do, a submitted input whose history renders adds
    a user turn and an assistant turn whose answer is not empty and whose
    fragments all meet the threshold. *)
Lemma script_run_submitted svc text w :
  text <> EmptyString ->
  history_renders (conversation w) = true ->
  exists answer retrieved evs r,
    script_run svc (Some text) w =
      (r,
       mk_world (conversation w ++ [mk_turn Usuario text None;
                                    mk_turn Asistente answer (Some retrieved)])
                (trace w ++ evs))
    /\ answer <> EmptyString /\ Forall above_threshold retrieved
    /\ (renders retrieved = true -> r = Ok tt)
    /\ (renders retrieved = false -> exists e, r = Raise e).
Proof.
  intros Hne Hr.
  destruct (script_run_turn svc text w (fun _ => True)
              (fun r => fst r <> EmptyString /\ Forall above_threshold (snd r)) Hne Hr)
    as (answer & retrieved & evs & r & E & _ & [Ha Hf] & Hok & Hfail); auto.
  - intros conv. apply guarded_pipeline_runs.
  - exists answer, retrieved, evs, r. auto.
Qed.

Lemma submitted_text user_input :
  submitted user_input = true -> exists text, user_input = Some text /\ text <> EmptyString.
Proof.
  destruct user_input as [text |]; simpl; [| discriminate].
  intros H. exists text. split; [reflexivity |].
  apply String.eqb_neq. now destruct (String.eqb text EmptyString).
Qed.

(** What a run does to the conversation: nothing, or one user turn followed
    by one assistant turn. *)
Lemma script_run_conversation svc user_input w :
  exists added,
    conversation (snd (script_run svc user_input w)) = conversation w ++ added /\
    Forall turn_above_threshold added /\
    (if processes user_input w
     then exists u a, added = [u; a] /\ turn_role u = Usuario /\ turn_role a = Asistente
     else added = []).
Proof.
  unfold processes. destruct (history_renders (conversation w)) eqn:Hr.
  - destruct (submitted user_input) eqn:Hs; simpl.
    + destruct (submitted_text _ Hs) as (text & -> & Hne).
      destruct (script_run_submitted svc text w Hne Hr)
        as (answer & retrieved & evs & r & E & _ & Hf & _).
      rewrite E. simpl. eexists. split; [reflexivity |]. split.
      * repeat constructor. exact Hf.
      * eauto.
    + destruct (script_run_idle svc user_input w Hs Hr) as (evs & E & _).
      rewrite E. simpl. exists []. rewrite app_nil_r. repeat split; constructor.
  - rewrite andb_false_r.
    destruct (script_run_history_fails svc user_input w Hr) as (e & evs & E & _).
    rewrite E. simpl. exists []. rewrite app_nil_r. repeat split; constructor.
Qed.

Lemma run_session_conversation svc inputs : forall w,
  exists added,
    conversation (run_session svc inputs w) = conversation w ++ added /\
    List.length added = 2 * turns_processed svc inputs w /\
    alternating added = true /\
    Forall turn_above_threshold added.
Proof.
  induction inputs as [| user_input rest IH]; intros w; simpl.
  - exists []. rewrite app_nil_r. repeat split; constructor.
  - destruct (script_run_conversation svc user_input w) as (added1 & E1 & F1 & Hshape).
    destruct (IH (snd (script_run svc user_input w))) as (added2 & E2 & L2 & A2 & F2).
    exists (added1 ++ added2). rewrite E2, E1, <- app_assoc.
    split; [reflexivity |]. rewrite length_app, L2.
    destruct (processes user_input w).
    + destruct Hshape as (u & a & -> & Hu & Ha). simpl. rewrite Hu, Ha.
      repeat split; [lia | exact A2 | apply (Forall_app _ [u; a] added2); auto].
    + subst added1. simpl. repeat split; auto.
Qed.

(** A run that completes has rendered the history, so it read its input. *)
Lemma script_run_ok_renders svc user_input w :
  fst (script_run svc user_input w) = Ok tt -> history_renders (conversation w) = true.
Proof.
  intros H. destruct (history_renders (conversation w)) eqn:Hr; [reflexivity |].
  destruct (script_run_history_fails svc user_input w Hr) as (e & evs & E & _).
  rewrite E in H. discriminate.
Qed.

Lemma session_completes_processed svc inputs : forall w,
  session_completes svc inputs w ->
  turns_processed svc inputs w = List.length (filter submitted inputs).
Proof.
  induction inputs as [| user_input rest IH]; intros w; simpl; [reflexivity |].
  intros [Hok Hrest]. rewrite (IH _ Hrest). unfold processes.
  rewrite (script_run_ok_renders svc user_input w Hok), andb_true_r.
  now destruct (submitted user_input).
Qed.

(** ** The script on concrete services *)

Example services_down_three_calls :
  let r := safe_generate_content failing_services "hola" 3 new_session in
  fst r = Ok GENERATION_FALLBACK /\ generate_calls (trace (snd r)) = 3.
Proof. vm_compute. split; reflexivity. Qed.

Example no_retry_allowed :
  safe_embed_content working_services "hola" 0 new_session = (Ok PyNone, new_session) /\
  safe_embed_content working_services "hola" (-2) new_session = (Ok PyNone, new_session).
Proof. split; reflexivity. Qed.

Example malformed_responses_fail :
  map (fun response => attempt_fails (extract_text (fun s => s) response))
    [ PyNone;
      PyDict [("candidates", PyList [])];
      PyObj [("candidates", PyList [])];
      PyObj [("candidates", PyList [PyObj []])];
      PyObj [("candidates", PyList [PyObj [("content", PyObj [("parts", PyList [])])]])];
      PyObj [("candidates", PyList [PyObj [("content", PyObj [("parts", PyList [PyObj [("text", PyNone)]])])]])];
      text_response "hola" ]
  = [true; true; true; true; true; true; false].
Proof. reflexivity. Qed.

Example embedding_key_is_required :
  map extract_embedding
    [ PyDict [("embedding", example_vector)];
      PyDict [("embedding", PyNone)];
      PyDict [("error", PyStr "quota")] ]
  = [Ok (Some example_vector); Ok (Some PyNone); Ok None].
Proof. reflexivity. Qed.

Example partial_retrieval_is_kept :
  scan_response
    (PyDict [("matches",
              PyList [index_match "a" 0.9 "Anexo" "uno";
                      PyDict [("score", PyStr "alto")];
                      index_match "b" 0.8 "Anexo" "dos"])])
  = ([mk_fragment (PyStr "uno") (PyStr "Anexo") (PyFloat 0.9)],
     Some (mk_exn TypeError ">= not supported between these instances")).
Proof. vm_compute. reflexivity. Qed.

Example threshold_is_inclusive :
  map (fun v => py_ge_float v MIN_SIMILARITY_SCORE)
    [PyFloat 0.5; PyFloat 0.49; PyFloat nan; PyInt 0; PyInt 1; PyBool true]
  = [Ok true; Ok false; Ok false; Ok false; Ok true; Ok true].
Proof. vm_compute. reflexivity. Qed.

Example session_of_two_questions :
  map turn_role
    (conversation
       (run_session working_services [Some "uno"; None; Some EmptyString; Some "dos"] new_session))
  = [Usuario; Asistente; Usuario; Asistente].
Proof. vm_compute. reflexivity. Qed.

(** A retained score that no float can hold: the turn is stored, then the
    rendering of line 180 raises; the next run raises at line 116, before
    the chat input is read, so the second question is never recorded. *)
Example huge_score_stops_the_session :
  let r1 := script_run huge_score_services (Some "uno") new_session in
  let w2 := run_session huge_score_services [Some "uno"; Some "dos"] new_session in
  fst r1 = Raise (mk_exn OverflowError "int too large to convert to float") /\
  map turn_role (conversation (snd r1)) = [Usuario; Asistente] /\
  map content (conversation w2) = ["uno"; "respuesta"] /\
  turns_processed huge_score_services [Some "uno"; Some "dos"] new_session = 1.
Proof. vm_compute. repeat split; reflexivity. Qed.

(** * Specification properties *)

(** C1 (threshold invariant).  Every fragment stored in a turn of the
    conversation has [score >= MIN_SIMILARITY_SCORE]: each run of the script
    only adds turns whose fragments meet the threshold, so every session
    started from the empty conversation keeps the invariant; and when the
    body of the outer [try] raises, the handler records the error text with
    an empty fragment list. *)
Theorem threshold_invariant :
  (forall svc user_input w,
      exists added,
        conversation (snd (script_run svc user_input w)) = conversation w ++ added /\
        Forall turn_above_threshold added) /\
  (forall svc inputs,
      Forall turn_above_threshold (conversation (run_session svc inputs new_session))) /\
  (forall body e w w',
      body w = (Raise e, w') -> guarded body w = (Ok (error_answer e, []), w')).
Proof.
  split; [| split].
  - intros svc user_input w.
    destruct (script_run_conversation svc user_input w) as (added & E & F & _).
    now exists added.
  - intros svc inputs.
    destruct (run_session_conversation svc inputs new_session) as (added & E & _ & _ & F).
    now rewrite E.
  - intros body e w w' E. unfold guarded, try_except. now rewrite E.
Qed.

(** C2 (no exception leaves the wrappers).  Whatever the service does at
    each attempt, [safe_generate_content] and [safe_embed_content] return a
    value; and when every attempt fails (the call raises, or its response
    has not the expected shape), the first returns the fixed fallback text
    and the second returns [None]. *)
Theorem safe_wrappers_never_raise svc text max_retries w :
  (exists s, fst (safe_generate_content svc text max_retries w) = Ok s) /\
  (exists v, fst (safe_embed_content svc text max_retries w) = Ok v) /\
  ((forall evs, attempt_fails (generation_outcome svc (trace w ++ evs) text) = true) ->
   fst (safe_generate_content svc text max_retries w) = Ok GENERATION_FALLBACK) /\
  ((forall evs, attempt_fails (embedding_outcome svc (trace w ++ evs) text) = true) ->
   fst (safe_embed_content svc text max_retries w) = Ok PyNone).
Proof.
  repeat split.
  - destruct (safe_generate_content_runs svc w text max_retries w (extends_refl w))
      as (s & evs & E & _). exists s. now rewrite E.
  - destruct (safe_embed_content_runs svc w text max_retries w (extends_refl w))
      as (v & evs & E & _). exists v. now rewrite E.
  - intros H.
    destruct (safe_generate_content_exhausted svc w text max_retries H w (extends_refl w))
      as (s & evs & E & _ & ->). now rewrite E.
  - intros H.
    destruct (safe_embed_content_exhausted svc w text max_retries H w (extends_refl w))
      as (v & evs & E & _ & ->). now rewrite E.
Qed.

Lemma safe_wrappers_never_raise_witness :
  fst (safe_generate_content failing_services "hola" 3 new_session) = Ok GENERATION_FALLBACK /\
  fst (safe_embed_content failing_services "hola" 3 new_session) = Ok PyNone.
Proof.
  destruct (safe_wrappers_never_raise failing_services "hola" 3 new_session)
    as (_ & _ & Hg & He).
  split; [apply Hg | apply He]; intros evs; reflexivity.
Defined.

(** C3 (append-only history).  After a session that processed K user
    turns, the conversation holds exactly 2K turns, user and assistant
    alternating; and whatever runs follow, the conversation reached so far
    stays as a prefix: turns are appended, never changed or removed.  A run
    processes its input when the input is not empty and the rendering of
    the stored history (lines 111-116) has not raised; in a session all of
    whose runs complete, K is the number of non-empty inputs. *)
Theorem append_only_history svc inputs :
  let w := run_session svc inputs new_session in
  List.length (conversation w) = 2 * turns_processed svc inputs new_session /\
  alternating (conversation w) = true /\
  (forall more, exists added, conversation (run_session svc more w) = conversation w ++ added) /\
  (session_completes svc inputs new_session ->
   turns_processed svc inputs new_session = List.length (filter submitted inputs)).
Proof.
  intros w. subst w.
  destruct (run_session_conversation svc inputs new_session) as (added & E & L & A & _).
  rewrite E. simpl. repeat split; auto.
  - intros more.
    destruct (run_session_conversation svc more (run_session svc inputs new_session))
      as (added' & E' & _).
    exists added'. now rewrite E', E.
  - apply session_completes_processed.
Qed.

Lemma append_only_history_witness :
  session_completes working_services [Some "uno"; None; Some "dos"] new_session /\
  turns_processed working_services [Some "uno"; None; Some "dos"] new_session = 2 /\
  List.length (conversation (run_session working_services [Some "uno"; None; Some "dos"]
                               new_session)) = 4.
Proof.
  assert (H : session_completes working_services [Some "uno"; None; Some "dos"] new_session)
    by (vm_compute; repeat split; reflexivity).
  destruct (append_only_history working_services [Some "uno"; None; Some "dos"])
    as (L & _ & _ & K).
  split; [exact H |]. split; [exact (K H) |].
  rewrite L, (K H). reflexivity.
Defined.

(** C4 (retry bound).  One invocation of [safe_generate_content]
    (respectively [safe_embed_content]) with maximum retry count [N] adds at
    most [N] calls of the underlying service to the trace. *)
Theorem retry_bound svc text (N : Z) w :
  (0 <= N)%Z ->
  (Z.of_nat (generate_calls (trace (snd (safe_generate_content svc text N w))))
     <= Z.of_nat (generate_calls (trace w)) + N)%Z /\
  (Z.of_nat (embed_calls (trace (snd (safe_embed_content svc text N w))))
     <= Z.of_nat (embed_calls (trace w)) + N)%Z.
Proof.
  intros HN. split.
  - pose proof (for_range_calls generate_calls (generate_attempt svc text) (ret GENERATION_FALLBACK)) as H.
    specialize (H (fun k w0 => Nat.eq_le_incl _ _ (generate_attempt_calls svc text k w0))
                  (fun w0 => eq_refl) (Z.to_nat N) 0 w).
    unfold safe_generate_content. lia.
  - pose proof (for_range_calls embed_calls (embed_attempt svc text) (ret PyNone)) as H.
    specialize (H (fun k w0 => Nat.eq_le_incl _ _ (embed_attempt_calls svc text k w0))
                  (fun w0 => eq_refl) (Z.to_nat N) 0 w).
    unfold safe_embed_content. lia.
Qed.

Lemma retry_bound_witness :
  (0 <= 3)%Z /\
  (Z.of_nat (generate_calls (trace (snd (safe_generate_content failing_services "hola" 3 new_session))))
     <= Z.of_nat (generate_calls (trace new_session)) + 3)%Z /\
  (Z.of_nat (embed_calls (trace (snd (safe_embed_content failing_services "hola" 3 new_session))))
     <= Z.of_nat (embed_calls (trace new_session)) + 3)%Z.
Proof.
  split; [lia |]. apply (retry_bound failing_services "hola" 3 new_session). lia.
Defined.

(** A turn whose embedding stage yields a falsy vector. *)
Lemma falsy_vector_turn svc text w :
  text <> EmptyString ->
  history_renders (conversation w) = true ->
  (forall q w1, (exists evs, trace w1 = trace w ++ evs) ->
     exists v, fst (safe_embed_content svc q 3 w1) = Ok v /\ py_truthy v = false) ->
  exists answer evs,
    script_run svc (Some text) w =
      (Ok tt,
       mk_world (conversation w ++ [mk_turn Usuario text None;
                                    mk_turn Asistente answer (Some [])])
                (trace w ++ evs))
    /\ answer <> EmptyString
    /\ Forall not_index_query evs.
Proof.
  intros Hne Hh H.
  destruct (script_run_turn svc text w not_index_query
              (fun r => fst r <> EmptyString /\ snd r = []) Hne Hh)
    as (answer & retrieved & evs & r & E & F & [Ha Hr] & Hok & _).
  - apply presentation_event_no_query.
  - intros conv. apply runs_try_except. apply pipeline_falsy. intros q w1 H1.
    destruct (safe_embed_content_runs svc w1 q 3 w1 (extends_refl w1)) as (a & evs & E & F & _).
    destruct (H q w1) as (v & Ev & Hv).
    { destruct H1 as [_ H1]. exact H1. }
    rewrite E in Ev. simpl in Ev. injection Ev as ->.
    exists v, evs. repeat split; auto.
    eapply Forall_impl; [apply embedding_event_no_query | exact F].
  - simpl in Hr. subst retrieved. rewrite (Hok eq_refl) in E. exists answer, evs. auto.
Qed.

(** A turn (lines 121-180) whose embedding stage yields a falsy vector. *)
Lemma falsy_vector_process_turn svc text w :
  (forall q w1, (exists evs, trace w1 = trace w ++ evs) ->
     exists v, fst (safe_embed_content svc q 3 w1) = Ok v /\ py_truthy v = false) ->
  exists answer evs,
    process_turn svc text w =
      (Ok tt,
       mk_world (conversation w ++ [mk_turn Usuario text None;
                                    mk_turn Asistente answer (Some [])])
                (trace w ++ evs))
    /\ answer <> EmptyString
    /\ Forall not_index_query evs.
Proof.
  intros H.
  destruct (process_turn_runs svc text w not_index_query
              (fun r => fst r <> EmptyString /\ snd r = []))
    as (answer & retrieved & evs & r & E & F & [Ha Hr] & Hok & _).
  - apply presentation_event_no_query.
  - apply runs_try_except. apply pipeline_falsy. intros q w1 H1.
    destruct (safe_embed_content_runs svc w1 q 3 w1 (extends_refl w1)) as (a & evs & E & F & _).
    destruct (H q w1) as (v & Ev & Hv).
    { destruct H1 as [_ H1]. exact H1. }
    rewrite E in Ev. simpl in Ev. injection Ev as ->.
    exists v, evs. repeat split; auto.
    eapply Forall_impl; [apply embedding_event_no_query | exact F].
  - simpl in Hr. subst retrieved. rewrite (Hok eq_refl) in E. exists answer, evs. auto.
Qed.

(** C5 (total-failure containment).  If the embedding wrapper returns
    [None] during the turn, processing the turn (lines 121-180) completes
    without raising, makes no index query, and appends the user turn and an
    assistant turn with an empty fragment list and a non-empty answer; and
    so does the whole script run, when the history it renders first (lines
    110-116) can be rendered. *)
Theorem embedding_failure_contained svc text w :
  text <> EmptyString ->
  (forall q w1, (exists evs, trace w1 = trace w ++ evs) ->
     fst (safe_embed_content svc q 3 w1) = Ok PyNone) ->
  (exists answer evs,
     process_turn svc text w =
       (Ok tt,
        mk_world (conversation w ++ [mk_turn Usuario text None;
                                     mk_turn Asistente answer (Some [])])
                 (trace w ++ evs))
     /\ answer <> EmptyString
     /\ Forall not_index_query evs) /\
  (history_renders (conversation w) = true ->
   exists answer evs,
     script_run svc (Some text) w =
       (Ok tt,
        mk_world (conversation w ++ [mk_turn Usuario text None;
                                     mk_turn Asistente answer (Some [])])
                 (trace w ++ evs))
     /\ answer <> EmptyString
     /\ Forall not_index_query evs).
Proof.
  intros Hne H.
  assert (Hv : forall q w1, (exists evs, trace w1 = trace w ++ evs) ->
                 exists v, fst (safe_embed_content svc q 3 w1) = Ok v /\ py_truthy v = false).
  { intros q w1 H1. exists PyNone. split; [now apply H | reflexivity]. }
  split.
  - now apply falsy_vector_process_turn.
  - intros Hh. now apply falsy_vector_turn.
Qed.

Lemma embedding_failure_contained_witness :
  (exists answer evs,
     process_turn failing_services "hola" new_session =
       (Ok tt,
        mk_world (conversation new_session ++ [mk_turn Usuario "hola" None;
                                               mk_turn Asistente answer (Some [])])
                 (trace new_session ++ evs))
     /\ answer <> EmptyString
     /\ Forall not_index_query evs) /\
  (exists answer evs,
     script_run failing_services (Some "hola") new_session =
       (Ok tt,
        mk_world (conversation new_session ++ [mk_turn Usuario "hola" None;
                                               mk_turn Asistente answer (Some [])])
                 (trace new_session ++ evs))
     /\ answer <> EmptyString
     /\ Forall not_index_query evs).
Proof.
  destruct (embedding_failure_contained failing_services "hola" new_session) as [Hp Hs].
  - discriminate.
  - intros q w1 _.
    destruct (safe_embed_content_exhausted failing_services w1 q 3 (fun _ => eq_refl)
                w1 (extends_refl w1)) as (v & evs & E & _ & ->).
    now rewrite E.
  - split; [exact Hp | exact (Hs eq_refl)].
Defined.

(** C6 (order preservation).  For the matches scored 0.91, 0.73, 0.40, 0.60
    the retained fragments are the first, second and fourth, in that order,
    and they are what the retrieval stage returns;
    for every list of well-formed matches the loop retains exactly the
    matches meeting the threshold, in the order the index returned them;
    and for arbitrary matches the retained list is what each match read
    before the first failure contributes, in order. *)
Theorem order_preservation :
  (let retained := fst (scan_response (PyDict [("matches", PyList example_matches)])) in
   map score retained = [PyFloat 0.91; PyFloat 0.73; PyFloat 0.60] /\
   map texto retained = [PyStr "primero"; PyStr "segundo"; PyStr "cuarto"] /\
   fst (retrieve working_services example_vector new_session) = Ok retained) /\
  (forall ps, scan_response (query_response ps) = (spec_filter_by_score ps, None)) /\
  (forall ms, fst (collect_matches ms []) = flat_map kept (readable_prefix ms)).
Proof.
  split; [| split].
  - vm_compute. repeat split; reflexivity.
  - intros ps. unfold scan_response, query_response. simpl.
    apply (collect_matches_passages ps []).
  - intros ms. apply (collect_matches_kept ms []).
Qed.

(** C7 (empty-retrieval fallback).  With no retained fragment the synthesis
    stage changes nothing (no call, no output) and yields the fixed text;
    and in the rest of the turn every language-model call is the final
    prompt built on that text. *)
Theorem empty_retrieval_skips_synthesis svc user_input w :
  synthesize svc user_input [] w = (Ok NO_FRAGMENTS_CONTEXT, w) /\
  exists answer evs,
    answer_from svc user_input [] w =
      (Ok (answer, []), mk_world (conversation w) (trace w ++ evs)) /\
    Forall (generates_only
              (final_prompt (format_history (removelast (conversation w)))
                            NO_FRAGMENTS_CONTEXT user_input)) evs.
Proof.
  split; [reflexivity |].
  assert (H : runs_from w
                (generates_only (final_prompt (format_history (removelast (conversation w)))
                                              NO_FRAGMENTS_CONTEXT user_input))
                (fun r => snd r = @nil fragment)
                (answer_from svc user_input [])).
  { unfold answer_from.
    eapply runs_bind with (Q1 := fun ctx => ctx = NO_FRAGMENTS_CONTEXT); [now apply runs_ret |].
    intros ctx ->. eapply runs_bind.
    - eapply runs_weaken; [apply generation_event_only | | apply generate_answer_runs].
      intros a q; exact q.
    - intros answer _. now apply runs_ret. }
  destruct (H w (extends_refl w)) as ([answer frs] & evs & E & F & Hr).
  simpl in Hr. subst frs. now exists answer, evs.
Qed.

Lemma embed_attempt_first svc text k w :
  exists r evs,
    embed_attempt svc text k w =
      (Ok r, mk_world (conversation w) (trace w ++ EmbedCall text :: evs)).
Proof.
  unfold embed_attempt, try_except, bind, call_embed, lift, emit, ret.
  destruct (embed_content svc (trace w) text) as [response | e]; simpl.
  - destruct (extract_embedding response) as [[v |] | e]; simpl;
      eexists; eexists; rewrite <- ?app_assoc; reflexivity.
  - eexists; eexists; rewrite <- ?app_assoc; reflexivity.
Qed.

(** With three attempts allowed, the embedding wrapper starts by calling
    the service on the text it was given. *)
Lemma safe_embed_content_first_call svc text w :
  exists v evs,
    safe_embed_content svc text 3 w =
      (Ok v, mk_world (conversation w) (trace w ++ EmbedCall text :: evs)).
Proof.
  unfold safe_embed_content. change (Z.to_nat 3) with 3. cbn [for_range]. unfold bind at 1.
  destruct (embed_attempt_first svc text 0 w) as (r & evs & E). rewrite E.
  destruct r as [v |]; cbv beta iota.
  - now exists v, evs.
  - set (w1 := mk_world (conversation w) (trace w ++ EmbedCall text :: evs)).
    destruct (runs_for_range w1 (embedding_event text) (fun _ => True)
                (embed_attempt svc text) (ret PyNone)) with (n := 2) (k := 1) (w1 := w1)
      as (v & evs' & E' & _).
    + intros k. eapply runs_weaken; [| | apply embed_attempt_runs]; auto.
      now intros [a |] _.
    + now apply runs_ret.
    + apply extends_refl.
    + exists v, (evs ++ evs'). cbn [for_range] in E'. rewrite E'. subst w1. simpl.
      now rewrite <- app_assoc.
Qed.

(** After a failed expansion the body goes on: whatever its outcome, its
    next events are the print and the embedding call on the fallback text. *)
Lemma pipeline_after_fallback svc user_input w :
  fst (safe_generate_content svc (expand_prompt user_input) 3 w) = Ok GENERATION_FALLBACK ->
  exists r later,
    pipeline svc user_input w =
      (r,
       mk_world (conversation w)
         (trace (snd (safe_generate_content svc (expand_prompt user_input) 3 w))
            ++ [Stdout ["La consulta expandida es: "; GENERATION_FALLBACK];
                EmbedCall GENERATION_FALLBACK]
            ++ later)).
Proof.
  intros H.
  destruct (safe_generate_content_runs svc w (expand_prompt user_input) 3 w (extends_refl w))
    as (s & evs & E & _).
  rewrite E in H. simpl in H. injection H as ->.
  unfold pipeline, expand_query. unfold bind at 1 2 3. rewrite E. unfold emit, ret. simpl.
  unfold answer_expanded. unfold bind at 1.
  match goal with |- context [safe_embed_content svc ?t 3 ?w2] =>
    destruct (safe_embed_content_first_call svc t w2) as (v & evs2 & E2)
  end.
  rewrite E2. simpl.
  match goal with |- context [bind (retrieve svc v) ?k ?w3] =>
    assert (Hrest : steps_from w3 (fun _ => True) (fun _ => True) (bind (retrieve svc v) k))
  end.
  { eapply steps_bind.
    - apply steps_of_runs. eapply runs_weaken; [| | apply retrieve_runs]; auto.
      intros a q; exact q.
    - intros retrieved _. eapply steps_weaken; [| | apply answer_from_steps]; auto. }
  destruct (Hrest _ (extends_refl _)) as (r & evs3 & E3 & _).
  rewrite E3. simpl.
  exists r, (evs2 ++ evs3).
  repeat rewrite <- app_assoc. reflexivity.
Qed.

(** C8 (failed expansion).  If the expansion call returns the fallback
    text, the body of the turn goes on: the first thing it does after
    printing is to call the embedding service on that fallback text, and
    the turn (lines 127-173) completes with an answer. *)
Theorem failed_expansion_is_embedded svc user_input w :
  fst (safe_generate_content svc (expand_prompt user_input) 3 w) = Ok GENERATION_FALLBACK ->
  exists answer retrieved later,
    let w' := mk_world (conversation w)
                (trace (snd (safe_generate_content svc (expand_prompt user_input) 3 w))
                   ++ [Stdout ["La consulta expandida es: "; GENERATION_FALLBACK];
                       EmbedCall GENERATION_FALLBACK]
                   ++ later) in
    snd (pipeline svc user_input w) = w' /\
    guarded (pipeline svc user_input) w = (Ok (answer, retrieved), w').
Proof.
  intros H. destruct (pipeline_after_fallback svc user_input w H) as (r & later & E).
  unfold guarded, try_except. rewrite E.
  destruct r as [[answer retrieved] | e].
  - now exists answer, retrieved, later.
  - now exists (error_answer e), [], later.
Qed.

Lemma failed_expansion_is_embedded_witness :
  exists answer retrieved later,
    let w' := mk_world (conversation new_session)
                (trace (snd (safe_generate_content failing_services (expand_prompt "hola") 3
                               new_session))
                   ++ [Stdout ["La consulta expandida es: "; GENERATION_FALLBACK];
                       EmbedCall GENERATION_FALLBACK]
                   ++ later) in
    snd (pipeline failing_services "hola" new_session) = w' /\
    guarded (pipeline failing_services "hola") new_session = (Ok (answer, retrieved), w').
Proof.
  apply (failed_expansion_is_embedded failing_services "hola" new_session).
  reflexivity.
Defined.





(** C10 (empty vector).  The guard of line 138 tests the truthiness of the
    vector: for the empty list (which is not [None]) the retrieval stage
    does nothing and returns no fragment, and processing a turn whose
    embedding is the empty list makes no index query and records an empty
    fragment list; so does the whole script run, when the history it
    renders first can be rendered. *)
Theorem empty_vector_skips_retrieval svc text w :
  text <> EmptyString ->
  (forall q w1, (exists evs, trace w1 = trace w ++ evs) ->
     fst (safe_embed_content svc q 3 w1) = Ok (PyList [])) ->
  PyList [] <> PyNone /\
  (forall w0, retrieve svc (PyList []) w0 = (Ok [], w0)) /\
  (exists answer evs,
     process_turn svc text w =
       (Ok tt,
        mk_world (conversation w ++ [mk_turn Usuario text None;
                                     mk_turn Asistente answer (Some [])])
                 (trace w ++ evs))
     /\ Forall not_index_query evs) /\
  (history_renders (conversation w) = true ->
   exists answer evs,
     script_run svc (Some text) w =
       (Ok tt,
        mk_world (conversation w ++ [mk_turn Usuario text None;
                                     mk_turn Asistente answer (Some [])])
                 (trace w ++ evs))
     /\ Forall not_index_query evs).
Proof.
  intros Hne H. split; [discriminate |]. split; [reflexivity |].
  assert (Hv : forall q w1, (exists evs, trace w1 = trace w ++ evs) ->
                 exists v, fst (safe_embed_content svc q 3 w1) = Ok v /\ py_truthy v = false).
  { intros q w1 H1. exists (PyList []). split; [now apply H | reflexivity]. }
  split.
  - destruct (falsy_vector_process_turn svc text w Hv) as (answer & evs & E & _ & F).
    now exists answer, evs.
  - intros Hh. destruct (falsy_vector_turn svc text w Hne Hh Hv) as (answer & evs & E & _ & F).
    now exists answer, evs.
Qed.

Lemma empty_vector_skips_retrieval_witness :
  PyList [] <> PyNone /\
  (forall w0, retrieve empty_vector_services (PyList []) w0 = (Ok [], w0)) /\
  (exists answer evs,
     process_turn empty_vector_services "hola" new_session =
       (Ok tt,
        mk_world (conversation new_session ++ [mk_turn Usuario "hola" None;
                                               mk_turn Asistente answer (Some [])])
                 (trace new_session ++ evs))
     /\ Forall not_index_query evs) /\
  (exists answer evs,
     script_run empty_vector_services (Some "hola") new_session =
       (Ok tt,
        mk_world (conversation new_session ++ [mk_turn Usuario "hola" None;
                                               mk_turn Asistente answer (Some [])])
                 (trace new_session ++ evs))
     /\ Forall not_index_query evs).
Proof.
  destruct (empty_vector_skips_retrieval empty_vector_services "hola" new_session)
    as (Hn & Hr & Hp & Hs).
  - discriminate.
  - intros q w1 _. reflexivity.
  - split; [exact Hn |]. split; [exact Hr |]. split; [exact Hp | exact (Hs eq_refl)].
Defined.

(** * Further properties of the script *)

(** ** The retrying wrappers: edge cases, success, cost *)

(** X1.  With a retry count of zero or less the loops do not run: both
    wrappers return their fallback at once, without any call, sleep or
    notice. *)
Theorem no_retries_no_calls svc text (N : Z) w :
  (N <= 0)%Z ->
  safe_generate_content svc text N w = (Ok GENERATION_FALLBACK, w) /\
  safe_embed_content svc text N w = (Ok PyNone, w).
Proof.
  intros HN. unfold safe_generate_content, safe_embed_content.
  replace (Z.to_nat N) with 0 by lia. split; reflexivity.
Qed.

Lemma no_retries_no_calls_witness :
  safe_generate_content working_services "hola" (-1) new_session
    = (Ok GENERATION_FALLBACK, new_session) /\
  safe_embed_content working_services "hola" (-1) new_session = (Ok PyNone, new_session).
Proof.
  apply (no_retries_no_calls working_services "hola" (-1) new_session). lia.
Defined.

Lemma generate_attempt_success svc prompt k w s :
  generation_outcome svc (trace w) prompt = Ok (Some s) ->
  generate_attempt svc prompt k w =
    (Ok (Some s), mk_world (conversation w) (trace w ++ [GenerateCall prompt])).
Proof.
  unfold generation_outcome, generate_attempt, try_except, bind, call_generate, lift, emit, ret.
  destruct (generate_content svc (trace w) prompt) as [response | e]; simpl; [| discriminate].
  intros ->. reflexivity.
Qed.

Lemma embed_attempt_success svc text k w v :
  embedding_outcome svc (trace w) text = Ok (Some v) ->
  embed_attempt svc text k w =
    (Ok (Some v), mk_world (conversation w) (trace w ++ [EmbedCall text])).
Proof.
  unfold embedding_outcome, embed_attempt, try_except, bind, call_embed, lift, emit, ret.
  destruct (embed_content svc (trace w) text) as [response | e]; simpl; [| discriminate].
  intros ->. reflexivity.
Qed.



Lemma generate_attempt_origin svc prompt k w :
  (exists evs, trace (snd (generate_attempt svc prompt k w)) = trace w ++ evs) /\
  (forall s, fst (generate_attempt svc prompt k w) = Ok (Some s) ->
     generation_outcome svc (trace w) prompt = Ok (Some s)).
Proof.
  unfold generation_outcome, generate_attempt, try_except, bind, call_generate, lift, emit, ret.
  destruct (generate_content svc (trace w) prompt) as [response | e]; simpl.
  - destruct (extract_text (strip svc) response) as [[s |] | e]; simpl;
      (split; [rewrite <- ?app_assoc; eexists; reflexivity | intros s' E; congruence]).
  - split; [rewrite <- ?app_assoc; eexists; reflexivity | intros s' E; congruence].
Qed.

Lemma embed_attempt_origin svc text k w :
  (exists evs, trace (snd (embed_attempt svc text k w)) = trace w ++ evs) /\
  (forall v, fst (embed_attempt svc text k w) = Ok (Some v) ->
     embedding_outcome svc (trace w) text = Ok (Some v)).
Proof.
  unfold embedding_outcome, embed_attempt, try_except, bind, call_embed, lift, emit, ret.
  destruct (embed_content svc (trace w) text) as [response | e]; simpl.
  - destruct (extract_embedding response) as [[v |] | e]; simpl;
      (split; [rewrite <- ?app_assoc; eexists; reflexivity | intros v' E; congruence]).
  - split; [rewrite <- ?app_assoc; eexists; reflexivity | intros v' E; congruence].
Qed.

Lemma for_range_origin {A} (body : nat -> M (option A)) (fallback : A) (call : event)
      (R : list event -> A -> Prop) :
  (forall k w,
      (exists evs, trace (snd (body k w)) = trace w ++ evs) /\
      (forall a, fst (body k w) = Ok (Some a) ->
                 trace (snd (body k w)) = trace w ++ [call] /\ R (trace w) a)) ->
  forall n k w a,
    fst (for_range k n body (ret fallback) w) = Ok a ->
    a = fallback \/
    exists evs,
      trace (snd (for_range k n body (ret fallback) w)) = trace w ++ evs ++ [call] /\
      R (trace w ++ evs) a.
Proof.
  intros Hbody. induction n as [| n IH]; intros k w a; simpl.
  - unfold ret. simpl. intros E. injection E as <-. now left.
  - unfold bind. destruct (Hbody k w) as [[evs0 Ht] Hr].
    destruct (body k w) as [[[a' |] | e] w1]; simpl in *.
    + unfold ret. simpl. intros E. injection E as <-. right. exists [].
      rewrite app_nil_r. now apply Hr.
    + intros E. destruct (IH _ _ _ E) as [-> | (evs & Htr & HR)]; [now left |].
      right. exists (evs0 ++ evs). rewrite Htr, Ht, <- !app_assoc.
      split; [reflexivity |]. rewrite app_assoc, <- Ht. exact HR.
    + discriminate.
Qed.

Lemma generate_attempt_returns svc prompt k w :
  (exists evs, trace (snd (generate_attempt svc prompt k w)) = trace w ++ evs) /\
  (forall s, fst (generate_attempt svc prompt k w) = Ok (Some s) ->
     trace (snd (generate_attempt svc prompt k w)) = trace w ++ [GenerateCall prompt] /\
     generation_outcome svc (trace w) prompt = Ok (Some s)).
Proof.
  destruct (generate_attempt_origin svc prompt k w) as [Ht Ho].
  split; [exact Ht |]. intros s E. pose proof (Ho s E) as H.
  now rewrite (generate_attempt_success svc prompt k w s H).
Qed.

Lemma embed_attempt_returns svc text k w :
  (exists evs, trace (snd (embed_attempt svc text k w)) = trace w ++ evs) /\
  (forall v, fst (embed_attempt svc text k w) = Ok (Some v) ->
     trace (snd (embed_attempt svc text k w)) = trace w ++ [EmbedCall text] /\
     embedding_outcome svc (trace w) text = Ok (Some v)).
Proof.
  destruct (embed_attempt_origin svc text k w) as [Ht Ho].
  split; [exact Ht |]. intros v E. pose proof (Ho v E) as H.
  now rewrite (embed_attempt_success svc text k w v H).
Qed.

(** X3.  A wrapper never makes up its result: what it returns is either its
    fallback or the value that the last call of this very invocation
    obtained from the service; that call is the last event the invocation
    added to the trace, and [evs] are the events it added before it. *)
Theorem wrapper_result_origin svc text (N : Z) w :
  (forall s, fst (safe_generate_content svc text N w) = Ok s ->
     s = GENERATION_FALLBACK \/
     exists evs,
       trace (snd (safe_generate_content svc text N w))
         = trace w ++ evs ++ [GenerateCall text] /\
       generation_outcome svc (trace w ++ evs) text = Ok (Some s)) /\
  (forall v, fst (safe_embed_content svc text N w) = Ok v ->
     v = PyNone \/
     exists evs,
       trace (snd (safe_embed_content svc text N w))
         = trace w ++ evs ++ [EmbedCall text] /\
       embedding_outcome svc (trace w ++ evs) text = Ok (Some v)).
Proof.
  split.
  - intros s. unfold safe_generate_content.
    apply (for_range_origin (generate_attempt svc text) GENERATION_FALLBACK (GenerateCall text)
             (fun tr s => generation_outcome svc tr text = Ok (Some s))).
    intros k w0. apply generate_attempt_returns.
  - intros v. unfold safe_embed_content.
    apply (for_range_origin (embed_attempt svc text) PyNone (EmbedCall text)
             (fun tr v => embedding_outcome svc tr text = Ok (Some v))).
    intros k w0. apply embed_attempt_returns.
Qed.

Lemma wrapper_result_origin_witness :
  "respuesta" = GENERATION_FALLBACK \/
  exists evs,
    trace (snd (safe_generate_content flaky_services "hola" 3 new_session))
      = trace new_session ++ evs ++ [GenerateCall "hola"] /\
    generation_outcome flaky_services (trace new_session ++ evs) "hola"
      = Ok (Some "respuesta").
Proof.
  apply (proj1 (wrapper_result_origin flaky_services "hola" 3 new_session)).
  reflexivity.
Defined.

Lemma sleeps_snoc tr ev : sleeps (tr ++ [ev]) = sleeps tr + (if is_sleep ev then 1 else 0).
Proof.
  unfold sleeps. rewrite filter_app, length_app. simpl. now destruct (is_sleep ev).
Qed.

Lemma generate_attempt_failed svc prompt k w :
  attempt_fails (generation_outcome svc (trace w) prompt) = true ->
  fst (generate_attempt svc prompt k w) = Ok None /\
  sleeps (trace (snd (generate_attempt svc prompt k w))) = sleeps (trace w) + 1.
Proof.
  unfold generation_outcome, generate_attempt, try_except, bind, call_generate, lift, emit, ret.
  destruct (generate_content svc (trace w) prompt) as [response | e]; simpl.
  - destruct (extract_text (strip svc) response) as [[s |] | e]; simpl; intros H;
      try discriminate; (split; [reflexivity | rewrite ?sleeps_snoc; simpl; lia]).
  - intros _. split; [reflexivity | rewrite ?sleeps_snoc; simpl; lia].
Qed.

Lemma embed_attempt_failed svc text k w :
  attempt_fails (embedding_outcome svc (trace w) text) = true ->
  fst (embed_attempt svc text k w) = Ok None /\
  sleeps (trace (snd (embed_attempt svc text k w))) = sleeps (trace w) + 1.
Proof.
  unfold embedding_outcome, embed_attempt, try_except, bind, call_embed, lift, emit, ret.
  destruct (embed_content svc (trace w) text) as [response | e]; simpl.
  - destruct (extract_embedding response) as [[v |] | e]; simpl; intros H;
      try discriminate; (split; [reflexivity | rewrite ?sleeps_snoc; simpl; lia]).
  - intros _. split; [reflexivity | rewrite ?sleeps_snoc; simpl; lia].
Qed.

(** A loop whose every attempt falls through runs all its iterations. *)
Lemma for_range_exhausted {A} (body : nat -> M (option A)) (fallback : A)
      (count : list event -> nat) :
  forall n k w,
    (forall k w1, (exists evs, trace w1 = trace w ++ evs) ->
       fst (body k w1) = Ok None /\
       (exists evs, trace (snd (body k w1)) = trace w1 ++ evs) /\
       count (trace (snd (body k w1))) = count (trace w1) + 1) ->
    count (trace (snd (for_range k n body (ret fallback) w))) = count (trace w) + n.
Proof.
  induction n as [| n IH]; intros k w H; simpl.
  - lia.
  - unfold bind. destruct (H k w) as (Hr & [evs0 Ht] & Hc).
    { exists []. now rewrite app_nil_r. }
    destruct (body k w) as [r w1]; simpl in *. subst r.
    rewrite IH; [lia |].
    intros k' w2 [evs Hw2]. apply H. exists (evs0 ++ evs).
    now rewrite Hw2, Ht, app_assoc.
Qed.

(** X4.  When every attempt of a wrapper fails, that wrapper uses up its
    whole budget: with retry count [N] it makes exactly [N] calls and
    sleeps exactly [N] times (none for a negative [N]) before returning.
    This holds for each wrapper on its own, whatever the other service
    does. *)
Theorem exhausted_wrapper_cost svc text (N : Z) w :
  ((forall evs, attempt_fails (generation_outcome svc (trace w ++ evs) text) = true) ->
   generate_calls (trace (snd (safe_generate_content svc text N w)))
     = generate_calls (trace w) + Z.to_nat N /\
   sleeps (trace (snd (safe_generate_content svc text N w))) = sleeps (trace w) + Z.to_nat N) /\
  ((forall evs, attempt_fails (embedding_outcome svc (trace w ++ evs) text) = true) ->
   embed_calls (trace (snd (safe_embed_content svc text N w)))
     = embed_calls (trace w) + Z.to_nat N /\
   sleeps (trace (snd (safe_embed_content svc text N w))) = sleeps (trace w) + Z.to_nat N).
Proof.
  unfold safe_generate_content, safe_embed_content.
  split; intros H; split; apply for_range_exhausted; intros k w1 [evs Hw1];
    specialize (H evs); rewrite <- Hw1 in H.
  - repeat split; [apply (generate_attempt_failed _ _ _ _ H) |
                   apply generate_attempt_origin | apply generate_attempt_calls].
  - repeat split; [apply (generate_attempt_failed _ _ _ _ H) |
                   apply generate_attempt_origin | apply (generate_attempt_failed _ _ _ _ H)].
  - repeat split; [apply (embed_attempt_failed _ _ _ _ H) |
                   apply embed_attempt_origin | apply embed_attempt_calls].
  - repeat split; [apply (embed_attempt_failed _ _ _ _ H) |
                   apply embed_attempt_origin | apply (embed_attempt_failed _ _ _ _ H)].
Qed.

Lemma exhausted_wrapper_cost_witness :
  (generate_calls (trace (snd (safe_generate_content generation_down_services "hola" 3 new_session)))
     = generate_calls (trace new_session) + Z.to_nat 3 /\
   sleeps (trace (snd (safe_generate_content generation_down_services "hola" 3 new_session)))
     = sleeps (trace new_session) + Z.to_nat 3) /\
  (embed_calls (trace (snd (safe_embed_content embedding_down_services "hola" 3 new_session)))
     = embed_calls (trace new_session) + Z.to_nat 3 /\
   sleeps (trace (snd (safe_embed_content embedding_down_services "hola" 3 new_session)))
     = sleeps (trace new_session) + Z.to_nat 3).
Proof.
  split.
  - apply (proj1 (exhausted_wrapper_cost generation_down_services "hola" 3 new_session)).
    intros evs. reflexivity.
  - apply (proj2 (exhausted_wrapper_cost embedding_down_services "hola" 3 new_session)).
    intros evs. reflexivity.
Defined.

(** ** The retrieval stage: failures and provenance *)

(** X5.  Retrieval degrades instead of failing.  For a truthy query vector:
    if [index.query] raises, or its response cannot be read as a collection
    of matches, the stage returns no fragment and shows one error notice
    carrying the exception text; if the response is a dict without a
    ['matches'] key, the stage returns no fragment and shows nothing.  In
    each case the index was queried once, with [TOP_K]. *)
Theorem retrieval_degrades svc query_vector w :
  py_truthy query_vector = true ->
  (forall e,
      index_query svc (trace w) query_vector TOP_K = Raise e ->
      retrieve svc query_vector w =
        (Ok [], mk_world (conversation w)
                  (trace w ++ [IndexQuery query_vector TOP_K;
                               StError ("Error al consultar Pinecone: " +++ exn_str e)]))) /\
  (forall query_res e,
      index_query svc (trace w) query_vector TOP_K = Ok query_res ->
      rbind (py_get query_res "matches" (PyList [])) py_iter = Raise e ->
      retrieve svc query_vector w =
        (Ok [], mk_world (conversation w)
                  (trace w ++ [IndexQuery query_vector TOP_K;
                               StError ("Error al consultar Pinecone: " +++ exn_str e)]))) /\
  (forall d,
      index_query svc (trace w) query_vector TOP_K = Ok (PyDict d) ->
      dict_get d "matches" = None ->
      retrieve svc query_vector w =
        (Ok [], mk_world (conversation w) (trace w ++ [IndexQuery query_vector TOP_K]))).
Proof.
  intros Hv. unfold retrieve. rewrite Hv.
  unfold bind, try_except, call_index_query, ret, emit.
  repeat split.
  - intros e ->. simpl. now rewrite <- app_assoc.
  - intros query_res e -> Hm. unfold scan_response.
    change (rbind (py_get query_res "matches" (PyList [])) (fun matches => py_iter matches))
      with (rbind (py_get query_res "matches" (PyList [])) py_iter).
    rewrite Hm. simpl. now rewrite <- app_assoc.
  - intros d -> Hd. unfold scan_response. simpl. now rewrite Hd.
Qed.

Lemma retrieval_degrades_witness :
  retrieve index_down_services example_vector new_session
  = (Ok [], mk_world []
              [IndexQuery example_vector TOP_K; StError "Error al consultar Pinecone: timeout"]).
Proof.
  exact (proj1 (retrieval_degrades index_down_services example_vector new_session eq_refl)
           (mk_exn ServiceError "timeout") eq_refl).
Defined.

Lemma collect_matches_stops ms1 m ms2 e : forall retrieved,
  (forall m', In m' ms1 -> exists r, match_step m' = Ok r) ->
  match_step m = Raise e ->
  collect_matches (ms1 ++ m :: ms2) retrieved = (retrieved ++ flat_map kept ms1, Some e).
Proof.
  induction ms1 as [| m1 rest IH]; intros retrieved Hok Hm; simpl.
  - rewrite Hm. now rewrite app_nil_r.
  - assert (Hk : kept m1 = match match_step m1 with Ok (Some f) => [f] | _ => [] end)
      by reflexivity.
    destruct (Hok m1 (or_introl eq_refl)) as [[f |] E]; rewrite E in *; rewrite Hk.
    + rewrite IH; [now rewrite <- app_assoc | intros; apply Hok; now right | exact Hm].
    + rewrite IH; [reflexivity | intros; apply Hok; now right | exact Hm].
Qed.

(** X6.  When reading a match raises in the middle of the loop (a score
    that is not a number, a match that is not a dict, metadata that is not
    a dict), the fragments appended before it are kept, the matches after
    it are not read, and the stage shows one error notice. *)
Theorem partial_retrieval_kept svc query_vector w ms1 m ms2 e :
  py_truthy query_vector = true ->
  index_query svc (trace w) query_vector TOP_K
    = Ok (PyDict [("matches", PyList (ms1 ++ m :: ms2))]) ->
  (forall m', In m' ms1 -> exists r, match_step m' = Ok r) ->
  match_step m = Raise e ->
  retrieve svc query_vector w =
    (Ok (flat_map kept ms1),
     mk_world (conversation w)
       (trace w ++ [IndexQuery query_vector TOP_K;
                    StError ("Error al consultar Pinecone: " +++ exn_str e)])).
Proof.
  intros Hv Hq Hok Hm. unfold retrieve. rewrite Hv.
  unfold bind, try_except, call_index_query, ret, emit. rewrite Hq.
  unfold scan_response. simpl.
  rewrite (collect_matches_stops ms1 m ms2 e [] Hok Hm). simpl.
  now rewrite <- app_assoc.
Qed.

Lemma partial_retrieval_kept_witness :
  retrieve broken_match_services example_vector new_session
  = (Ok [mk_fragment (PyStr "uno") (PyStr "Anexo") (PyFloat 0.9)],
     mk_world []
       [IndexQuery example_vector TOP_K;
        StError "Error al consultar Pinecone: >= not supported between these instances"]).
Proof.
  refine (partial_retrieval_kept broken_match_services example_vector new_session
            [index_match "a" 0.9 "Anexo" "uno"] (PyDict [("score", PyNone)])
            [index_match "b" 0.8 "Anexo" "dos"]
            (mk_exn TypeError ">= not supported between these instances")
            eq_refl eq_refl _ eq_refl).
  intros m' [<- | []]. eexists. vm_compute. reflexivity.
Defined.

Lemma match_step_fields m f :
  match_step m = Ok (Some f) ->
  py_get m "score" (PyInt 0) = Ok (score f) /\
  exists meta,
    py_get m "metadata" (PyDict []) = Ok meta /\
    py_get meta "texto" (PyStr EmptyString) = Ok (texto f) /\
    py_get meta "documento" (PyStr EmptyString) = Ok (documento f).
Proof.
  unfold match_step, rbind.
  destruct (py_get m "score" (PyInt 0)) as [sc | e]; [| discriminate].
  destruct (py_ge_float sc MIN_SIMILARITY_SCORE) as [[|] | e]; try discriminate.
  destruct (py_get m "metadata" (PyDict [])) as [meta | e]; [| discriminate].
  destruct (py_get meta "texto" (PyStr EmptyString)) as [t | e] eqn:Et; [| discriminate].
  destruct (py_get meta "documento" (PyStr EmptyString)) as [d | e] eqn:Ed; [| discriminate].
  intros E. injection E as <-. simpl. split; [reflexivity |].
  exists meta. auto.
Qed.

Lemma readable_prefix_incl ms m : In m (readable_prefix ms) -> In m ms.
Proof.
  induction ms as [| m0 rest IH]; simpl; [tauto |].
  destruct (match_step m0); simpl; [| tauto].
  intros [-> | H]; auto.
Qed.

Lemma readable_prefix_length ms : List.length (readable_prefix ms) <= List.length ms.
Proof.
  induction ms as [| m0 rest IH]; simpl; [lia |].
  destruct (match_step m0); simpl; lia.
Qed.

Lemma kept_length ms : List.length (flat_map kept ms) <= List.length ms.
Proof.
  induction ms as [| m rest IH]; simpl; [lia |].
  rewrite length_app. unfold kept at 1.
  destruct (match_step m) as [[f |] | e]; simpl; lia.
Qed.

(** X7.  Every retained fragment comes from a match of the response: its
    score is that match's score and meets the threshold, and its text and
    source label are that match's metadata fields (or their defaults).  The
    stage never returns more fragments than the response has matches. *)
Theorem retained_fragments_provenance query_res f :
  In f (fst (scan_response query_res)) ->
  exists matches ms m,
    py_get query_res "matches" (PyList []) = Ok matches /\
    py_iter matches = Ok ms /\
    In m ms /\
    List.length (fst (scan_response query_res)) <= List.length ms /\
    py_get m "score" (PyInt 0) = Ok (score f) /\
    above_threshold f /\
    exists meta,
      py_get m "metadata" (PyDict []) = Ok meta /\
      py_get meta "texto" (PyStr EmptyString) = Ok (texto f) /\
      py_get meta "documento" (PyStr EmptyString) = Ok (documento f).
Proof.
  unfold scan_response, rbind.
  destruct (py_get query_res "matches" (PyList [])) as [matches | e] eqn:Eg; [| intros []].
  destruct (py_iter matches) as [ms | e] eqn:Ei; [| intros []].
  rewrite collect_matches_kept. simpl. intros Hin.
  apply in_flat_map in Hin. destruct Hin as (m & Hm & Hf).
  unfold kept in Hf. destruct (match_step m) as [[f' |] | e] eqn:E; simpl in Hf; try tauto.
  destruct Hf as [-> | []].
  destruct (match_step_fields _ _ E) as (Hs & meta & Hmeta & Ht & Hd).
  exists matches, ms, m.
  split; [reflexivity |]. split; [exact Ei |].
  split; [now apply readable_prefix_incl |].
  split; [etransitivity; [apply kept_length | apply readable_prefix_length] |].
  split; [exact Hs |].
  split; [apply (match_step_above _ _ E) |].
  exists meta. auto.
Qed.

Lemma retained_fragments_provenance_witness :
  exists matches ms m,
    py_get (PyDict [("matches", PyList example_matches)]) "matches" (PyList []) = Ok matches /\
    py_iter matches = Ok ms /\
    In m ms /\
    List.length (fst (scan_response (PyDict [("matches", PyList example_matches)])))
      <= List.length ms /\
    py_get m "score" (PyInt 0) = Ok (PyFloat 0.73) /\
    above_threshold (mk_fragment (PyStr "segundo") (PyStr "Apartado 2") (PyFloat 0.73)) /\
    exists meta,
      py_get m "metadata" (PyDict []) = Ok meta /\
      py_get meta "texto" (PyStr EmptyString) = Ok (PyStr "segundo") /\
      py_get meta "documento" (PyStr EmptyString) = Ok (PyStr "Apartado 2").
Proof.
  apply (retained_fragments_provenance (PyDict [("matches", PyList example_matches)])
           (mk_fragment (PyStr "segundo") (PyStr "Apartado 2") (PyFloat 0.73))).
  vm_compute. right. left. reflexivity.
Defined.

(** ** Rendering and whole runs *)

Lemma fragment_cards_events frs : forall w,
  renders frs = true ->
  fold_right (fun f rest => show_card f ;; rest) (ret tt) frs w
  = (Ok tt, mk_world (conversation w) (trace w ++ map StFragmentCard frs)).
Proof.
  induction frs as [| f rest IH]; intros w Hr; simpl.
  - unfold ret. now rewrite app_nil_r, world_eta.
  - simpl in Hr. apply andb_true_iff in Hr. destruct Hr as [Hf Hrest].
    unfold bind, show_card. destruct (card_error f); [discriminate |].
    unfold emit. rewrite (IH _ Hrest). simpl. now rewrite <- app_assoc.
Qed.

Lemma display_fragments_events frs w :
  renders frs = true ->
  display_fragments frs w = (Ok tt, mk_world (conversation w) (trace w ++ display_events frs)).
Proof.
  destruct frs as [| f rest]; intros Hr; [reflexivity |].
  apply (fragment_cards_events (f :: rest) w Hr).
Qed.

Lemma show_turn_events msg w :
  turn_renders msg = true ->
  show_turn msg w = (Ok tt, mk_world (conversation w) (trace w ++ turn_events msg)).
Proof.
  unfold show_turn, turn_events, turn_renders, bind, emit. simpl.
  destruct (turn_role msg); simpl; intros Hr.
  - unfold ret. now rewrite <- app_assoc.
  - destruct (fragments msg) as [frs |].
    + rewrite (display_fragments_events _ _ Hr). simpl. now rewrite <- !app_assoc.
    + unfold ret. now rewrite <- app_assoc.
Qed.

Lemma show_turns_events conv : forall w,
  history_renders conv = true ->
  fold_right (fun msg rest => show_turn msg ;; rest) (ret tt) conv w
  = (Ok tt, mk_world (conversation w) (trace w ++ flat_map turn_events conv)).
Proof.
  induction conv as [| msg rest IH]; intros w Hr; simpl.
  - unfold ret. now rewrite app_nil_r, world_eta.
  - simpl in Hr. apply andb_true_iff in Hr. destruct Hr as [Hm Hrest].
    unfold bind. rewrite (show_turn_events _ _ Hm), (IH _ Hrest). simpl.
    now rewrite <- app_assoc.
Qed.

Lemma show_history_events w :
  history_renders (conversation w) = true ->
  show_history w
  = (Ok tt, mk_world (conversation w) (trace w ++ flat_map turn_events (conversation w))).
Proof.
  intros Hr. unfold show_history, bind, get_conversation. now apply show_turns_events.
Qed.

Lemma script_run_idle_events svc user_input w :
  submitted user_input = false ->
  history_renders (conversation w) = true ->
  script_run svc user_input w
    = (Ok tt, mk_world (conversation w) (trace w ++ flat_map turn_events (conversation w))).
Proof.
  intros Hs Hr. unfold script_run, bind. rewrite (show_history_events w Hr).
  destruct user_input as [text |]; simpl in *; [| reflexivity].
  destruct (String.eqb text EmptyString); [reflexivity | discriminate].
Qed.

Lemma calls_to_app s tr evs : calls_to s (tr ++ evs) = calls_to s tr + calls_to s evs.
Proof. unfold calls_to. now rewrite filter_app, length_app. Qed.

Lemma presentation_no_calls s evs : Forall presentation_event evs -> calls_to s evs = 0.
Proof.
  unfold calls_to. induction 1 as [| ev evs Hev _ IH]; [reflexivity |].
  simpl. destruct ev; simpl in Hev; try tauto; destruct s; simpl; exact IH.
Qed.

Lemma turn_events_presentation msg : Forall presentation_event (turn_events msg).
Proof.
  unfold turn_events. destruct (turn_role msg); [repeat constructor |].
  destruct (fragments msg) as [frs |]; [| repeat constructor].
  apply Forall_app. split; [repeat constructor |].
  destruct frs as [| f frs]; [repeat constructor |].
  unfold display_events. induction (f :: frs); simpl; constructor; auto. exact I.
Qed.

Lemma history_events_presentation conv :
  Forall presentation_event (flat_map turn_events conv).
Proof.
  induction conv as [| msg rest IH]; simpl; [constructor |].
  apply Forall_app. split; [apply turn_events_presentation | exact IH].
Qed.

(** A run without a submitted input, whether its rendering completes or
    raises. *)
Lemma script_run_unsubmitted svc user_input w :
  submitted user_input = false ->
  exists r evs,
    script_run svc user_input w = (r, mk_world (conversation w) (trace w ++ evs)) /\
    Forall presentation_event evs.
Proof.
  intros Hs. destruct (history_renders (conversation w)) eqn:Hr.
  - destruct (script_run_idle svc user_input w Hs Hr) as (evs & E & F).
    now exists (Ok tt), evs.
  - destruct (script_run_history_fails svc user_input w Hr) as (e & evs & E & F).
    now exists (Raise e), evs.
Qed.

(** X8.  A run in which nothing is submitted (no input, or the empty text)
    leaves the conversation as it is and calls none of the services; and
    when the stored fragments render, it completes after replaying the
    stored conversation on the page, turn by turn. *)
Theorem idle_run_only_replays svc user_input w :
  submitted user_input = false ->
  (history_renders (conversation w) = true ->
   script_run svc user_input w
     = (Ok tt, mk_world (conversation w) (trace w ++ flat_map turn_events (conversation w)))) /\
  conversation (snd (script_run svc user_input w)) = conversation w /\
  forall s, calls_to s (trace (snd (script_run svc user_input w))) = calls_to s (trace w).
Proof.
  intros Hs. split; [apply (script_run_idle_events svc user_input w Hs) |].
  destruct (script_run_unsubmitted svc user_input w Hs) as (r & evs & E & F).
  rewrite E. cbn [snd trace conversation]. split; [reflexivity |].
  intros s. rewrite calls_to_app, (presentation_no_calls s _ F). lia.
Qed.

Lemma idle_run_only_replays_witness :
  script_run working_services (Some EmptyString)
    (mk_world [mk_turn Usuario "hola" None; mk_turn Asistente "respuesta" (Some [])] [])
  = (Ok tt,
     mk_world [mk_turn Usuario "hola" None; mk_turn Asistente "respuesta" (Some [])]
       [StChatMessage "usuario"; StMarkdown "hola";
        StChatMessage "asistente"; StMarkdown "respuesta";
        StInfo "No se encontraron fragmentos relevantes del pliego."]).
Proof.
  exact (proj1 (idle_run_only_replays working_services (Some EmptyString)
                  (mk_world [mk_turn Usuario "hola" None;
                             mk_turn Asistente "respuesta" (Some [])] [])
                  eq_refl) eq_refl).
Defined.

Section TurnEvents.

Variable svc : services.

Lemma retrieve_events w query_vector :
  runs_from w (retrieval_event query_vector) (Forall above_threshold)
    (retrieve svc query_vector).
Proof.
  unfold retrieve. destruct (py_truthy query_vector); [| apply runs_ret; constructor].
  intros w1 _. unfold bind, try_except, call_index_query, ret, emit.
  destruct (index_query svc (trace w1) query_vector TOP_K) as [query_res | e]; simpl.
  - pose proof (scan_response_above query_res) as Ha.
    destruct (scan_response query_res) as [frs [e |]]; simpl in *.
    + run_here [IndexQuery query_vector TOP_K; StError ("Error al consultar Pinecone: " +++ exn_str e)].
    + run_here [IndexQuery query_vector TOP_K].
  - run_here [IndexQuery query_vector TOP_K; StError ("Error al consultar Pinecone: " +++ exn_str e)].
Qed.

Lemma synthesize_events w user_input retrieved :
  steps_from w
    (fun ev => generation_event (synth_prompt (fragments_context svc retrieved) user_input) ev
               \/ exists s, ev = Stdout ["Los fragmentos sintetizados son: "; s])
    (fun _ => True)
    (synthesize svc user_input retrieved).
Proof.
  unfold synthesize. destruct retrieved as [| f rest];
    [apply steps_of_runs; now apply runs_ret |].
  destruct (context_error (f :: rest)); [apply steps_raise |].
  apply steps_of_runs. eapply runs_bind.
  - eapply runs_weaken; [| | apply safe_generate_content_runs].
    + intros ev H. left. exact H.
    + intros a q; exact q.
  - intros s _. eapply runs_bind with (Q1 := fun _ => True).
    + apply runs_emit. right. now exists s.
    + intros _ _. now apply runs_ret.
Qed.

Lemma pipeline_events w text :
  steps_from w (turn_event (removelast (conversation w)) text)
    (fun r => fst r <> EmptyString /\ Forall above_threshold (snd r))
    (pipeline svc text).
Proof.
  unfold pipeline, expand_query, answer_expanded, answer_from.
  eapply steps_bind.
  - apply steps_of_runs. eapply runs_bind.
    + eapply runs_weaken; [| | apply safe_generate_content_runs].
      * intros [] H; simpl in *; try tauto. left. exact H.
      * intros a q; exact q.
    + intros expanded _. eapply runs_bind with (Q1 := fun _ => True).
      * now apply runs_emit.
      * intros _ _. apply runs_ret with (Q := fun _ => True). exact I.
  - intros expanded _. eapply steps_bind.
    + apply steps_of_runs. eapply runs_weaken; [| | apply safe_embed_content_runs].
      * intros [] H; simpl in *; tauto.
      * intros a q; exact q.
    + intros query_vector _. eapply steps_bind.
      * apply steps_of_runs. eapply runs_weaken; [| | apply retrieve_events].
        -- intros [] H; simpl in *; tauto.
        -- intros a q; exact q.
      * intros retrieved Hr. eapply steps_bind.
        -- eapply steps_weaken; [| | apply synthesize_events].
           ++ intros ev [H | [s ->]]; [| exact I].
              destruct ev; simpl in *; try tauto. right. left. eauto.
           ++ intros a q; exact q.
        -- intros ctx _. apply steps_of_runs. eapply runs_bind.
           ++ eapply runs_weaken; [| | apply generate_answer_runs].
              ** intros [] H; simpl in *; try tauto. right. right. eauto.
              ** intros a q; exact q.
           ++ intros answer Ha. now apply runs_ret.
Qed.

Lemma guarded_pipeline_events w text :
  runs_from w (turn_event (removelast (conversation w)) text)
    (fun r => fst r <> EmptyString /\ Forall above_threshold (snd r))
    (guarded (pipeline svc text)).
Proof.
  apply guarded_runs; [apply pipeline_events |].
  intros e. split; [apply error_answer_not_empty | constructor].
Qed.

(** A submitted turn, with the page events spelled out: [mid] is what the
    body of the turn (lines 127-173) added to the trace, [shown] what the
    fragment panel of line 180 showed before completing or raising. *)
Lemma process_turn_shape text w (P : event -> Prop) (Q : string * list fragment -> Prop) :
  runs_from (mk_world (conversation w ++ [mk_turn Usuario text None]) (trace w)) P Q
    (guarded (pipeline svc text)) ->
  exists answer retrieved mid r shown,
    process_turn svc text w =
      (r,
       mk_world (conversation w ++ [mk_turn Usuario text None;
                                    mk_turn Asistente answer (Some retrieved)])
                (trace w ++ turn_events (mk_turn Usuario text None) ++ mid
                   ++ [StChatMessage "asistente"; StMarkdown answer] ++ shown))
    /\ guarded (pipeline svc text)
         (mk_world (conversation w ++ [mk_turn Usuario text None])
                   (trace w ++ turn_events (mk_turn Usuario text None)))
       = (Ok (answer, retrieved),
          mk_world (conversation w ++ [mk_turn Usuario text None])
                   ((trace w ++ turn_events (mk_turn Usuario text None)) ++ mid))
    /\ Forall P mid /\ Q (answer, retrieved)
    /\ Forall presentation_event shown
    /\ (renders retrieved = true -> r = Ok tt /\ shown = display_events retrieved)
    /\ (renders retrieved = false -> exists e, r = Raise e).
Proof.
  intros Hp.
  unfold process_turn, bind, append_turn, emit.
  cbn [fst snd conversation trace].
  replace ((trace w ++ [StChatMessage "usuario"]) ++ [StMarkdown text])
    with (trace w ++ turn_events (mk_turn Usuario text None))
    by (unfold turn_events; simpl; now rewrite <- app_assoc).
  destruct (Hp (mk_world (conversation w ++ [mk_turn Usuario text None])
                         (trace w ++ turn_events (mk_turn Usuario text None))))
    as ([answer retrieved] & mid & E & F & q).
  { split; simpl; [reflexivity |]. now eexists. }
  cbn [conversation trace] in E. rewrite E. cbn [fst snd conversation trace].
  match goal with |- context [display_fragments retrieved ?w2] =>
    destruct (display_fragments_steps w2 retrieved w2 (extends_refl w2))
      as (r & shown & E' & F' & _);
    pose proof (display_fragments_events retrieved w2) as Hok;
    pose proof (display_fragments_fail retrieved w2) as Hfail
  end.
  rewrite E' in *. cbn [fst snd conversation trace] in *.
  exists answer, retrieved, mid, r, shown.
  split; [unfold turn_events; simpl; repeat rewrite <- app_assoc; reflexivity |].
  split; [reflexivity |]. split; [exact F |]. split; [exact q |]. split; [exact F' |].
  split; [| exact Hfail].
  intros Hr. specialize (Hok Hr). injection Hok as -> Ht.
  split; [reflexivity |]. now apply app_inv_head in Ht.
Qed.

Lemma script_run_shape text w :
  text <> EmptyString ->
  history_renders (conversation w) = true ->
  exists answer retrieved mid r shown,
    script_run svc (Some text) w =
      (r,
       mk_world (conversation w ++ [mk_turn Usuario text None;
                                    mk_turn Asistente answer (Some retrieved)])
                (trace w ++ flat_map turn_events (conversation w)
                   ++ turn_events (mk_turn Usuario text None) ++ mid
                   ++ [StChatMessage "asistente"; StMarkdown answer] ++ shown))
    /\ guarded (pipeline svc text)
         (mk_world (conversation w ++ [mk_turn Usuario text None])
                   (trace w ++ flat_map turn_events (conversation w)
                      ++ turn_events (mk_turn Usuario text None)))
       = (Ok (answer, retrieved),
          mk_world (conversation w ++ [mk_turn Usuario text None])
                   ((trace w ++ flat_map turn_events (conversation w)
                       ++ turn_events (mk_turn Usuario text None)) ++ mid))
    /\ Forall (turn_event (conversation w) text) mid
    /\ answer <> EmptyString
    /\ Forall above_threshold retrieved
    /\ Forall presentation_event shown
    /\ (renders retrieved = true -> r = Ok tt /\ shown = display_events retrieved)
    /\ (renders retrieved = false -> exists e, r = Raise e).
Proof.
  intros Hne Hh. unfold script_run, bind. rewrite (show_history_events w Hh).
  apply String.eqb_neq in Hne. rewrite Hne.
  set (w0 := mk_world (conversation w) (trace w ++ flat_map turn_events (conversation w))).
  destruct (process_turn_shape text w0 (turn_event (conversation w) text)
              (fun r => fst r <> EmptyString /\ Forall above_threshold (snd r)))
    as (answer & retrieved & mid & r & shown & E & Ep & F & [Ha Hf] & Fs & Hok & Hfail).
  { pose proof (guarded_pipeline_events
                  (mk_world (conversation w0 ++ [mk_turn Usuario text None]) (trace w0)) text) as H.
    simpl in H. rewrite removelast_last in H. exact H. }
  rewrite E. subst w0. cbn [conversation trace] in *.
  exists answer, retrieved, mid, r, shown.
  split; [now rewrite <- !app_assoc |].
  split; [rewrite <- !app_assoc in Ep; rewrite <- !app_assoc; exact Ep |].
  auto 10.
Qed.

End TurnEvents.

(** X9.  Whatever the services do, a run with a submitted text, entered
    with a history that renders, stores the text verbatim as a user turn
    followed by one assistant turn whose answer is not empty, and shows the
    question, then the events of the turn's body, then the answer.  The run
    raises only while rendering the new fragments (line 180), after both
    turns were stored; when they render it completes, having shown for the
    new turns exactly what a later replay of the stored turns shows. *)
Theorem every_turn_is_answered svc text w :
  text <> EmptyString ->
  history_renders (conversation w) = true ->
  exists answer retrieved mid r shown,
    script_run svc (Some text) w =
      (r,
       mk_world (conversation w ++ [mk_turn Usuario text None;
                                    mk_turn Asistente answer (Some retrieved)])
                (trace w ++ flat_map turn_events (conversation w)
                   ++ turn_events (mk_turn Usuario text None) ++ mid
                   ++ [StChatMessage "asistente"; StMarkdown answer] ++ shown))
    /\ answer <> EmptyString
    /\ Forall (fun ev => ~ presentation_event ev) mid
    /\ Forall presentation_event shown
    /\ (renders retrieved = true ->
        r = Ok tt /\
        [StChatMessage "asistente"; StMarkdown answer] ++ shown
          = turn_events (mk_turn Asistente answer (Some retrieved)))
    /\ (renders retrieved = false -> exists e, r = Raise e).
Proof.
  intros Hne Hh.
  destruct (script_run_shape svc text w Hne Hh)
    as (answer & retrieved & mid & r & shown & E & _ & F & Ha & _ & Fs & Hok & Hfail).
  exists answer, retrieved, mid, r, shown.
  split; [exact E |]. split; [exact Ha |]. split.
  { eapply Forall_impl; [| exact F]. intros [] H; simpl in *; tauto. }
  split; [exact Fs |]. split; [| exact Hfail].
  intros Hr. destruct (Hok Hr) as [-> ->]. split; reflexivity.
Qed.

Lemma every_turn_is_answered_witness :
  exists answer retrieved mid r shown,
    script_run huge_score_services (Some "hola") new_session =
      (r,
       mk_world (conversation new_session ++ [mk_turn Usuario "hola" None;
                                              mk_turn Asistente answer (Some retrieved)])
                (trace new_session ++ flat_map turn_events (conversation new_session)
                   ++ turn_events (mk_turn Usuario "hola" None) ++ mid
                   ++ [StChatMessage "asistente"; StMarkdown answer] ++ shown))
    /\ answer <> EmptyString
    /\ Forall (fun ev => ~ presentation_event ev) mid
    /\ Forall presentation_event shown
    /\ (renders retrieved = true ->
        r = Ok tt /\
        [StChatMessage "asistente"; StMarkdown answer] ++ shown
          = turn_events (mk_turn Asistente answer (Some retrieved)))
    /\ (renders retrieved = false -> exists e, r = Raise e).
Proof.
  apply (every_turn_is_answered huge_score_services "hola" new_session).
  - discriminate.
  - reflexivity.
Defined.

(** X10.  The language model is only ever sent three kinds of prompt in a
    turn: the expansion prompt for the submitted text, a synthesis prompt
    for it, or the final prompt; and the history written into the final
    prompt is the conversation as it was before this turn, so the turn's
    own question appears there only as the current query. *)
Theorem turn_prompts_and_history svc text w :
  text <> EmptyString ->
  exists evs,
    trace (snd (script_run svc (Some text) w)) = trace w ++ evs /\
    Forall (prompts_of_turn (conversation w) text) evs.
Proof.
  intros Hne.
  assert (Hp : forall evs, Forall presentation_event evs ->
                           Forall (prompts_of_turn (conversation w) text) evs).
  { intros evs H. eapply Forall_impl; [| exact H]. intros [] Hev; simpl in *; tauto. }
  destruct (history_renders (conversation w)) eqn:Hh.
  - destruct (script_run_shape svc text w Hne Hh)
      as (answer & retrieved & mid & r & shown & E & _ & F & _ & _ & Fs & _).
    rewrite E. cbn [snd trace]. eexists. split; [reflexivity |].
    apply Forall_app; split; [apply Hp, history_events_presentation |].
    apply Forall_app; split;
      [apply Hp, (turn_events_presentation (mk_turn Usuario text None)) |].
    apply Forall_app; split.
    + eapply Forall_impl; [| exact F]. intros [] Hev; simpl in *; tauto.
    + apply Hp. apply Forall_app. split; [repeat constructor | exact Fs].
  - destruct (script_run_history_fails svc (Some text) w Hh) as (e & evs & E & F).
    rewrite E. cbn [snd trace]. exists evs. split; [reflexivity | now apply Hp].
Qed.

Lemma turn_prompts_and_history_witness :
  exists evs,
    trace (snd (script_run working_services (Some "dos")
                  (mk_world [mk_turn Usuario "uno" None;
                             mk_turn Asistente "respuesta" (Some [])] [])))
      = [] ++ evs /\
    Forall (prompts_of_turn [mk_turn Usuario "uno" None;
                             mk_turn Asistente "respuesta" (Some [])] "dos") evs.
Proof.
  apply (turn_prompts_and_history working_services "dos"
           (mk_world [mk_turn Usuario "uno" None;
                      mk_turn Asistente "respuesta" (Some [])] [])).
  discriminate.
Defined.

(** ** The cost of one run in service calls *)

Lemma calls_to_snoc s tr ev :
  calls_to s (tr ++ [ev]) = calls_to s tr + (if is_call s ev then 1 else 0).
Proof.
  rewrite calls_to_app. unfold calls_to. simpl. now destruct (is_call s ev).
Qed.

Lemma bounded_weaken s n n' {A} (m : M A) : n <= n' -> bounded s n m -> bounded s n' m.
Proof. intros Hn H w. specialize (H w). lia. Qed.

Lemma bounded_ret s {A} (a : A) : bounded s 0 (ret a).
Proof. intros w. simpl. lia. Qed.

Lemma bounded_raise s {A} e : bounded s 0 (lift (Raise e) : M A).
Proof. intros w. simpl. lia. Qed.

Lemma bounded_emit s ev : is_call s ev = false -> bounded s 0 (emit ev).
Proof. intros H w. simpl. rewrite calls_to_snoc, H. lia. Qed.

Lemma bounded_bind s n1 n2 {A B} (m : M A) (k : A -> M B) :
  bounded s n1 m -> (forall a, bounded s n2 (k a)) -> bounded s (n1 + n2) (bind m k).
Proof.
  intros Hm Hk w. unfold bind. specialize (Hm w).
  destruct (m w) as [[a | e] w1]; simpl in *.
  - specialize (Hk a w1). lia.
  - lia.
Qed.

Lemma bounded_try_except s n {A} (body : M A) (handler : exn -> M A) :
  bounded s n body -> (forall e, bounded s 0 (handler e)) ->
  bounded s n (try_except body handler).
Proof.
  intros Hb Hh w. unfold try_except. specialize (Hb w).
  destruct (body w) as [[a | e] w1]; simpl in *.
  - exact Hb.
  - specialize (Hh e w1). lia.
Qed.

Lemma bounded_for_range s c {A} (body : nat -> M (option A)) (after : M A) :
  (forall k, bounded s c (body k)) -> bounded s 0 after ->
  forall n k, bounded s (n * c) (for_range k n body after).
Proof.
  intros Hbody Hafter. induction n as [| n IH]; intros k; simpl.
  - exact Hafter.
  - apply bounded_bind; [apply Hbody |].
    intros [a |]; [eapply bounded_weaken; [| apply bounded_ret]; lia | apply IH].
Qed.

Section Budget.

Variable svc : services.
Variable s : service.

Lemma generate_attempt_bounded prompt k :
  bounded s (attempt_cost Generation s) (generate_attempt svc prompt k).
Proof.
  intros w. unfold generate_attempt, try_except, bind, call_generate, lift, emit, ret.
  destruct (generate_content svc (trace w) prompt) as [response | e]; simpl.
  - destruct (extract_text (strip svc) response) as [[t |] | e]; simpl;
      rewrite ?calls_to_snoc; destruct s; simpl; lia.
  - rewrite ?calls_to_snoc; destruct s; simpl; lia.
Qed.

Lemma embed_attempt_bounded text k :
  bounded s (attempt_cost Embedding s) (embed_attempt svc text k).
Proof.
  intros w. unfold embed_attempt, try_except, bind, call_embed, lift, emit, ret.
  destruct (embed_content svc (trace w) text) as [response | e]; simpl.
  - destruct (extract_embedding response) as [[t |] | e]; simpl;
      rewrite ?calls_to_snoc; destruct s; simpl; lia.
  - rewrite ?calls_to_snoc; destruct s; simpl; lia.
Qed.

Lemma safe_generate_content_bounded prompt :
  bounded s (3 * attempt_cost Generation s) (safe_generate_content svc prompt 3).
Proof.
  unfold safe_generate_content. apply bounded_for_range.
  - apply generate_attempt_bounded.
  - apply bounded_ret.
Qed.

Lemma safe_embed_content_bounded text :
  bounded s (3 * attempt_cost Embedding s) (safe_embed_content svc text 3).
Proof.
  unfold safe_embed_content. apply bounded_for_range.
  - apply embed_attempt_bounded.
  - apply bounded_ret.
Qed.

Lemma retrieve_bounded query_vector :
  bounded s (attempt_cost Index s) (retrieve svc query_vector).
Proof.
  intros w. unfold retrieve. destruct (py_truthy query_vector); [| simpl; lia].
  unfold bind, try_except, call_index_query, ret, emit.
  destruct (index_query svc (trace w) query_vector TOP_K) as [query_res | e]; simpl.
  - destruct (scan_response query_res) as [frs [e |]]; simpl;
      rewrite ?calls_to_snoc; destruct s; simpl; lia.
  - rewrite ?calls_to_snoc; destruct s; simpl; lia.
Qed.

Lemma print_bounded {A} args (a : A) : bounded s 0 (emit (Stdout args) ;; ret a).
Proof.
  apply (bounded_bind s 0 0); [apply bounded_emit; now destruct s | intros _; apply bounded_ret].
Qed.

Lemma synthesize_bounded user_input retrieved :
  bounded s (3 * attempt_cost Generation s) (synthesize svc user_input retrieved).
Proof.
  unfold synthesize. destruct retrieved as [| f rest].
  - eapply bounded_weaken; [| apply bounded_ret]. lia.
  - destruct (context_error (f :: rest)).
    + eapply bounded_weaken; [| apply bounded_raise]. lia.
    + eapply bounded_weaken;
        [| apply (bounded_bind s (3 * attempt_cost Generation s) 0);
           [apply safe_generate_content_bounded | intros t; apply print_bounded]].
      lia.
Qed.

Lemma generate_answer_bounded user_input synthesized_context :
  bounded s (3 * attempt_cost Generation s)
    (generate_answer svc user_input synthesized_context).
Proof.
  unfold generate_answer.
  apply (bounded_bind s 0 (3 * attempt_cost Generation s)).
  - intros w. simpl. lia.
  - intros conv. eapply bounded_weaken;
      [| apply (bounded_bind s (3 * attempt_cost Generation s) 0);
         [apply safe_generate_content_bounded |]].
    + lia.
    + intros answer. destruct (String.eqb answer EmptyString); apply bounded_ret.
Qed.

Lemma pipeline_bounded user_input : bounded s (turn_budget s) (pipeline svc user_input).
Proof.
  unfold pipeline, expand_query, answer_expanded, answer_from.
  eapply bounded_weaken;
    [| apply (bounded_bind s (3 * attempt_cost Generation s + 0)
                (3 * attempt_cost Embedding s
                 + (attempt_cost Index s
                    + (3 * attempt_cost Generation s
                       + (3 * attempt_cost Generation s + 0)))))].
  - unfold turn_budget. destruct s; simpl; lia.
  - apply bounded_bind; [apply safe_generate_content_bounded |].
    intros t. apply print_bounded.
  - intros expanded. apply bounded_bind; [apply safe_embed_content_bounded |].
    intros query_vector. apply bounded_bind; [apply retrieve_bounded |].
    intros retrieved. apply bounded_bind; [apply synthesize_bounded |].
    intros ctx. apply bounded_bind; [apply generate_answer_bounded |].
    intros answer. apply bounded_ret.
Qed.

Lemma guarded_pipeline_bounded user_input :
  bounded s (turn_budget s) (guarded (pipeline svc user_input)).
Proof.
  unfold guarded. apply bounded_try_except; [apply pipeline_bounded |].
  intros e. apply bounded_ret.
Qed.

Lemma script_run_bounded user_input : bounded s (turn_budget s) (script_run svc user_input).
Proof.
  intros w. destruct (history_renders (conversation w)) eqn:Hh.
  - destruct (submitted user_input) eqn:Hs.
    + destruct (submitted_text _ Hs) as (text & -> & Hne).
      destruct (script_run_shape svc text w Hne Hh)
        as (answer & retrieved & mid & r & shown & E & Ep & _ & _ & _ & Fs & _).
      pose proof (guarded_pipeline_bounded text
                    (mk_world (conversation w ++ [mk_turn Usuario text None])
                       (trace w ++ flat_map turn_events (conversation w)
                          ++ turn_events (mk_turn Usuario text None)))) as Hp.
      rewrite Ep in Hp. rewrite E. cbn [snd trace] in *.
      assert (Hans : calls_to s [StChatMessage "asistente"; StMarkdown answer] = 0)
        by (apply presentation_no_calls; repeat constructor).
      rewrite !calls_to_app in *.
      rewrite (presentation_no_calls s _ (history_events_presentation _)) in *.
      rewrite !(presentation_no_calls s _ (turn_events_presentation _)) in *.
      rewrite (presentation_no_calls s _ Fs), Hans.
      lia.
    + rewrite (script_run_idle_events svc user_input w Hs Hh). cbn [snd trace].
      rewrite calls_to_app, (presentation_no_calls s _ (history_events_presentation _)). lia.
  - destruct (script_run_history_fails svc user_input w Hh) as (e & evs & E & F).
    rewrite E. cbn [snd trace]. rewrite calls_to_app, (presentation_no_calls s _ F). lia.
Qed.

End Budget.

(** X11.  One run of the script costs at most nine calls of the language
    model (three attempts for each of expansion, synthesis and answer), at
    most three calls of the embedding service and at most one index query,
    whatever the services do. *)
Theorem turn_call_budget svc user_input w :
  generate_calls (trace (snd (script_run svc user_input w))) <= generate_calls (trace w) + 9 /\
  embed_calls (trace (snd (script_run svc user_input w))) <= embed_calls (trace w) + 3 /\
  calls_to Index (trace (snd (script_run svc user_input w))) <= calls_to Index (trace w) + 1.
Proof.
  exact (conj (script_run_bounded svc Generation user_input w)
           (conj (script_run_bounded svc Embedding user_input w)
                 (script_run_bounded svc Index user_input w))).
Qed.

Example budget_is_reached :
  let w := snd (script_run generation_down_services (Some "hola") new_session) in
  generate_calls (trace w) = 9 /\ embed_calls (trace w) = 1 /\ calls_to Index (trace w) = 1.
Proof. vm_compute. repeat split; reflexivity. Qed.

(** ** Sessions *)

Lemma user_texts_app conv1 conv2 : user_texts (conv1 ++ conv2) = user_texts conv1 ++ user_texts conv2.
Proof. unfold user_texts. now rewrite filter_app, map_app. Qed.

Lemma assistant_turns_app conv1 conv2 :
  assistant_turns (conv1 ++ conv2) = assistant_turns conv1 ++ assistant_turns conv2.
Proof. unfold assistant_turns. now rewrite filter_app. Qed.

Lemma run_session_records svc inputs : forall w,
  exists added,
    conversation (run_session svc inputs w) = conversation w ++ added /\
    user_texts added = processed_texts svc inputs w /\
    Forall (fun msg => content msg <> EmptyString /\ fragments msg <> None)
      (assistant_turns added) /\
    Forall (fun msg => fragments msg = None) (filter is_user_turn added).
Proof.
  induction inputs as [| user_input rest IH]; intros w; simpl.
  - exists []. rewrite app_nil_r. repeat split; constructor.
  - destruct (IH (snd (script_run svc user_input w))) as (added2 & E2 & T2 & A2 & U2).
    destruct (history_renders (conversation w)) eqn:Hh.
    + destruct (submitted user_input) eqn:Hs.
      * destruct (submitted_text _ Hs) as (text & -> & Hne).
        destruct (script_run_submitted svc text w Hne Hh)
          as (answer & retrieved & evs & r & E & Ha & _).
        rewrite E in E2, T2 |- *. cbn [snd conversation] in *.
        exists ([mk_turn Usuario text None; mk_turn Asistente answer (Some retrieved)] ++ added2).
        rewrite E2, <- app_assoc. split; [reflexivity |].
        rewrite user_texts_app, assistant_turns_app, filter_app, T2.
        apply String.eqb_neq in Hne. rewrite Hne. simpl.
        repeat split; auto; constructor; auto. simpl. split; [exact Ha | discriminate].
      * rewrite (script_run_idle_events svc user_input w Hs Hh) in E2, T2 |- *.
        cbn [snd conversation] in *.
        exists added2. split; [exact E2 |]. rewrite T2.
        destruct user_input as [text |]; simpl in *; auto.
        destruct (String.eqb text EmptyString); [auto | discriminate].
    + destruct (script_run_history_fails svc user_input w Hh) as (e & evs & E & _).
      rewrite E in E2, T2 |- *. cbn [snd conversation] in *.
      exists added2. rewrite T2. auto.
Qed.

Lemma session_completes_texts svc inputs : forall w,
  session_completes svc inputs w -> processed_texts svc inputs w = submitted_texts inputs.
Proof.
  induction inputs as [| user_input rest IH]; intros w; [reflexivity |].
  intros [Hok Hrest]. cbn [processed_texts].
  rewrite (IH _ Hrest), (script_run_ok_renders svc user_input w Hok).
  reflexivity.
Qed.

(** X12.  The user turns of a session's conversation are, verbatim and in
    order, the texts submitted to the runs that got past rendering the
    history (a run whose rendering raises never reads its input; inputs that
    are absent or empty leave no turn).  User turns carry no fragment list,
    every assistant turn carries one together with a non-empty answer, and
    in a session all of whose runs complete every submitted text is
    recorded. *)
Theorem session_records_every_input svc inputs :
  let conv := conversation (run_session svc inputs new_session) in
  user_texts conv = processed_texts svc inputs new_session /\
  Forall (fun msg => content msg <> EmptyString /\ fragments msg <> None) (assistant_turns conv) /\
  Forall (fun msg => fragments msg = None) (filter is_user_turn conv) /\
  (session_completes svc inputs new_session -> user_texts conv = submitted_texts inputs).
Proof.
  intros conv. subst conv.
  destruct (run_session_records svc inputs new_session) as (added & E & T & A & U).
  rewrite E. simpl. repeat split; auto.
  intros Hc. rewrite T. now apply session_completes_texts.
Qed.

Lemma session_records_every_input_witness :
  user_texts (conversation (run_session working_services [Some "uno"; None; Some "dos"]
                              new_session))
  = ["uno"; "dos"].
Proof.
  apply (proj2 (proj2 (proj2
           (session_records_every_input working_services [Some "uno"; None; Some "dos"])))).
  vm_compute. repeat split; reflexivity.
Defined.

Example unrecorded_after_failed_render :
  let inputs := [Some "uno"; Some "dos"] in
  processed_texts huge_score_services inputs new_session = ["uno"] /\
  submitted_texts inputs = ["uno"; "dos"].
Proof. vm_compute. split; reflexivity. Qed.

(** ** The answer and synthesis stages *)

(** X13.  When the language model's first answer to the final prompt is
    text that strips to the empty string, the answer stage returns the
    fixed apology instead; any other first answer is returned as it is.
    Either way one call was made, with the final prompt over the history
    without its last entry. *)
Theorem empty_answer_is_replaced svc user_input synthesized_context w s :
  generation_outcome svc (trace w)
    (final_prompt (format_history (removelast (conversation w))) synthesized_context user_input)
    = Ok (Some s) ->
  generate_answer svc user_input synthesized_context w =
    (Ok (if String.eqb s EmptyString then EMPTY_ANSWER_APOLOGY else s),
     mk_world (conversation w)
       (trace w ++ [GenerateCall
                      (final_prompt (format_history (removelast (conversation w)))
                         synthesized_context user_input)])).
Proof.
  intros H. unfold generate_answer, bind, get_conversation.
  unfold safe_generate_content. change (Z.to_nat 3) with 3. cbn [for_range]. unfold bind.
  rewrite (generate_attempt_success _ _ _ _ _ H). unfold ret.
  now destruct (String.eqb s EmptyString).
Qed.

Lemma empty_answer_is_replaced_witness :
  generate_answer blank_answer_services "hola" NO_FRAGMENTS_CONTEXT
    (mk_world [mk_turn Usuario "hola" None] []) =
    (Ok EMPTY_ANSWER_APOLOGY,
     mk_world [mk_turn Usuario "hola" None]
       [GenerateCall (final_prompt EmptyString NO_FRAGMENTS_CONTEXT "hola")]).
Proof.
  exact (empty_answer_is_replaced blank_answer_services "hola" NO_FRAGMENTS_CONTEXT
           (mk_world [mk_turn Usuario "hola" None] []) EmptyString eq_refl).
Defined.






(** A source label too long to be written out: line 152 raises, the outer
    handler of lines 171-173 records the error text with no fragments, and
    the run completes after the one call of the expansion stage. *)
Example huge_label_reaches_the_handler :
  let e := mk_exn ValueError "Exceeds the limit (4300 digits) for integer string conversion" in
  let w := mk_world [mk_turn Usuario "hola" None] [] in
  let r := guarded (pipeline huge_label_services "hola") w in
  fst (pipeline huge_label_services "hola" w) = Raise e /\
  fst r = Ok (error_answer e, []) /\
  generate_calls (trace (snd r)) = 1 /\
  fst (script_run huge_label_services (Some "hola") new_session) = Ok tt.
Proof. vm_compute. repeat split; reflexivity. Qed.

(** ** The order of the stages *)






(** ** The formatted history *)

Lemma string_append_assoc (a b c : string) : (a +++ b) +++ c = a +++ b +++ c.
Proof. induction a as [| ch a IH]; simpl; [reflexivity | now rewrite IH]. Qed.

Lemma string_append_empty_r (a : string) : a +++ EmptyString = a.
Proof. induction a as [| ch a IH]; simpl; [reflexivity | now rewrite IH]. Qed.

Lemma join_snoc sep parts last :
  join sep (parts ++ [last])
  = match parts with
    | [] => last
    | _ => join sep parts +++ sep +++ last
    end.
Proof.
  induction parts as [| p rest IH]; [reflexivity |].
  destruct rest as [| q rest]; [reflexivity |].
  change (join sep ((p :: q :: rest) ++ [last]))
    with (p +++ sep +++ join sep ((q :: rest) ++ [last])).
  rewrite IH.
  change (join sep (p :: q :: rest)) with (p +++ sep +++ join sep (q :: rest)).
  now rewrite !string_append_assoc.
Qed.

(** X16.  The formatted history is one [role: content] line per turn,
    joined by newlines without a trailing one: formatting a conversation
    extended by a turn appends a newline and that turn's line to the
    formatted conversation (only the line, when the conversation was empty),
    and the empty conversation formats to the empty string. *)
Theorem history_grows_by_lines conv msg :
  format_history [] = EmptyString /\
  format_history (conv ++ [msg])
  = match conv with
    | [] => history_line msg
    | _ => format_history conv +++ nl +++ history_line msg
    end.
Proof.
  split; [reflexivity |].
  unfold format_history. rewrite map_app. simpl map at 2.
  rewrite join_snoc. destruct conv; reflexivity.
Qed.

(** ** Recovery from transient failures *)

Lemma generate_loop_recovers svc prompt s : forall j n k w,
  j < n ->
  (forall tr, generate_calls tr < generate_calls (trace w) + j ->
              attempt_fails (generation_outcome svc tr prompt) = true) ->
  (forall tr, generate_calls tr = generate_calls (trace w) + j ->
              generation_outcome svc tr prompt = Ok (Some s)) ->
  let r := for_range k n (generate_attempt svc prompt) (ret GENERATION_FALLBACK) w in
  fst r = Ok s /\
  generate_calls (trace (snd r)) = generate_calls (trace w) + j + 1 /\
  sleeps (trace (snd r)) = sleeps (trace w) + j.
Proof.
  induction j as [| j IH]; intros n k w Hj Hfail Hok; destruct n as [| n]; try lia;
    cbn zeta; cbn [for_range]; unfold bind.
  - rewrite (generate_attempt_success svc prompt k w s) by (apply Hok; lia).
    cbn [fst snd trace ret]. rewrite generate_calls_snoc, sleeps_snoc. simpl.
    repeat split; lia.
  - assert (Hf : attempt_fails (generation_outcome svc (trace w) prompt) = true)
      by (apply Hfail; lia).
    destruct (generate_attempt_failed svc prompt k w Hf) as [Hr Hs].
    pose proof (generate_attempt_calls svc prompt k w) as Hc.
    destruct (generate_attempt svc prompt k w) as [r w1]. cbn [fst snd] in *. subst r.
    destruct (IH n (S k) w1) as (R1 & R2 & R3).
    + lia.
    + intros tr Htr. apply Hfail. lia.
    + intros tr Htr. apply Hok. lia.
    + cbn zeta in R1, R2, R3. repeat split; [exact R1 | lia | lia].
Qed.

(** X17.  The generation wrapper rides out transient failures: if the
    service fails on its next [j] calls and then answers, and [j] is less
    than the retry count, the wrapper returns that answer after exactly
    [j + 1] calls and [j] sleeps. *)
Theorem transient_failures_recovered svc prompt (N : Z) w j s :
  (Z.of_nat j < N)%Z ->
  (forall tr, generate_calls tr < generate_calls (trace w) + j ->
              attempt_fails (generation_outcome svc tr prompt) = true) ->
  (forall tr, generate_calls tr = generate_calls (trace w) + j ->
              generation_outcome svc tr prompt = Ok (Some s)) ->
  fst (safe_generate_content svc prompt N w) = Ok s /\
  generate_calls (trace (snd (safe_generate_content svc prompt N w)))
    = generate_calls (trace w) + j + 1 /\
  sleeps (trace (snd (safe_generate_content svc prompt N w))) = sleeps (trace w) + j.
Proof.
  intros Hj Hfail Hok. unfold safe_generate_content.
  apply (generate_loop_recovers svc prompt s j (Z.to_nat N) 0 w); auto. lia.
Qed.

Lemma transient_failures_recovered_witness :
  fst (safe_generate_content flaky_services "hola" 3 new_session) = Ok "respuesta" /\
  generate_calls (trace (snd (safe_generate_content flaky_services "hola" 3 new_session)))
    = generate_calls (trace new_session) + 2 + 1 /\
  sleeps (trace (snd (safe_generate_content flaky_services "hola" 3 new_session)))
    = sleeps (trace new_session) + 2.
Proof.
  apply (transient_failures_recovered flaky_services "hola" 3 new_session 2 "respuesta").
  - lia.
  - intros tr Htr. unfold generation_outcome. simpl in *.
    destruct (Nat.ltb_spec (generate_calls tr) 2); [reflexivity | lia].
  - intros tr Htr. unfold generation_outcome. simpl in *.
    destruct (Nat.ltb_spec (generate_calls tr) 2); [lia | reflexivity].
Defined.
